(** * AiCE: alignment pre-processing (scaProcessMSA) and the
      frequency / secondary-structure merge (predicted_single_HF_mutations)

    A shallow embedding of the two Python scripts of the repository.

    - [scripts/pySCA/scaProcessMSA.py] is a straight-line script.  Its
      stages are embedded as functions in a small monad that records the
      printed lines and the way the script stops (normal completion,
      [sys.exit], or an exception nobody catches).  The functions of
      [scaTools] that the script calls are not part of the sources at hand;
      they appear as the fields of the record [scaTools], and the script is
      embedded once and for all over an arbitrary such record.
    - [scripts/predicted_single_HF_mutations.py]: [merge_data] is embedded
      as the loop it is, over the state (merged, j, pos_counter). *)

From Stdlib Require Import ZArith QArith Qround Ascii String Lia.
From stdpp Require Import base option list strings pretty sorting.

Local Open Scope Z_scope.
Local Open Scope string_scope.
Local Open Scope list_scope.

(** ** Python values used by the scripts *)

(** A position label of the ATS: the script puts integers (from [range])
    and strings (lines of a position file, structure labels, the gap
    sentinel ['-']) in the same list. *)
Inductive label : Type :=
  | LInt (n : Z)
  | LStr (s : string).

#[global] Instance label_eq_dec : EqDecision label.
Proof. solve_decision. Defined.

(** The sentinel ['-'] of the ATS. *)
Definition gap : label := LStr "-".

(** Python's [x == '-'] on a label: an integer is never equal to a string. *)
Definition is_gap (x : label) : bool := bool_decide (x = gap).

(** Floating point numbers are carried as the rationals they denote.  The
    script copies distances as they are; where it adds or multiplies floats
    (the sequence weights), the rounded operation is a parameter, see
    [floats] below. *)
Abbreviation matrix := (list (list Q)).

(** [range(n)], as the list of its elements. *)
Definition range (n : nat) : list Z := Z.of_nat <$> seq 0 n.

(** [l[i]] for a Python [int] index: a negative index counts from the end,
    and [None] stands for [IndexError]. *)
Definition py_index {A} (l : list A) (i : Z) : option A :=
  if decide (0 <= i) then l !! Z.to_nat i
  else if decide (- Z.of_nat (length l) <= i)
       then l !! Z.to_nat (Z.of_nat (length l) + i)
       else None.

(** [l.index(x)]: the position of the first occurrence, [None] for
    [ValueError]. *)
Fixpoint list_index {A} `{EqDecision A} (x : A) (l : list A) : option nat :=
  match l with
  | [] => None
  | y :: l' => if decide (y = x) then Some 0%nat else S <$> list_index x l'
  end.

(** [m[j, k]] on a two-dimensional array, for indices that are not
    negative. *)
Definition mat_get (m : matrix) (j k : nat) : option Q :=
  row ← m !! j; row !! k.

(** [m[j, k] = v], in place. *)
Definition mat_set (j k : nat) (v : Q) (m : matrix) : matrix :=
  alter (λ row, <[k := v]> row) j m.

(** [np.zeros((n, n))]. *)
Definition mat_zeros (n : nat) : matrix := replicate n (replicate n 0%Q).

(** [for (i, x) in enumerate(l): body], where the body may raise: the loop
    threads the mutated state and stops at the first exception. *)
Fixpoint for_enum {A St : Type} (body : nat → A → St → option St)
    (i : nat) (l : list A) (s : St) : option St :=
  match l with
  | [] => Some s
  | x :: l' => s' ← body i x s; for_enum body (S i) l' s'
  end.

(** ** The distance-matrix remap (scaProcessMSA.py, lines 170-180) *)

(** The value written for a pair of columns one of which has no structure
    position. *)
Definition unreachable : Q := 1000%Q.

(** [dist_pdb[ats_pdb.index(pos1), ats_pdb.index(pos2)]]: the raw distance
    between the structure positions that two labels name. *)
Definition raw_distance (ats_pdb : list label) (dist_pdb : matrix)
    (pos1 pos2 : label) : option Q :=
  ix_j ← list_index pos1 ats_pdb;
  ix_k ← list_index pos2 ats_pdb;
  mat_get dist_pdb ix_j ix_k.

(** The body of the inner loop, for the pair [(j, pos1)], [(k, pos2)]. *)
Definition remap_cell (ats_pdb : list label) (dist_pdb : matrix)
    (j : nat) (pos1 : label) (k : nat) (pos2 : label)
    (dist_new : matrix) : option matrix :=
  if decide (k ≠ j) then
    if is_gap pos1 || is_gap pos2 then
      Some (mat_set j k unreachable dist_new)
    else
      v ← raw_distance ats_pdb dist_pdb pos1 pos2;
      Some (mat_set j k v dist_new)
  else Some dist_new.

(** The two nested loops over [enumerate(ats)], starting from
    [np.zeros((len(ats), len(ats)))].  [None]: one of the lookups raised. *)
Definition remap (ats ats_pdb : list label) (dist_pdb : matrix) : option matrix :=
  for_enum (λ j pos1 dist_new,
              for_enum (λ k pos2 dist_new,
                          remap_cell ats_pdb dist_pdb j pos1 k pos2 dist_new)
                       0%nat ats dist_new)
           0%nat ats (mat_zeros (length ats)).

(** A matrix of [n] rows of [n] entries. *)
Definition square (n : nat) (m : matrix) : Prop :=
  length m = n ∧ ∀ j row, m !! j = Some row → length row = n.

(** The entry [(j, k)] the two loops leave in the matrix, for the labels
    [pos1] and [pos2] of the columns [j] and [k]. *)
Definition remapped_entry (ats_pdb : list label) (dist_pdb : matrix)
    (j : nat) (pos1 : label) (k : nat) (pos2 : label) : option Q :=
  if decide (k = j) then Some 0%Q
  else if is_gap pos1 || is_gap pos2 then Some unreachable
  else raw_distance ats_pdb dist_pdb pos1 pos2.

(** ** Running a script: printed lines, exceptions, [sys.exit] *)

(** What a bare [except:] can catch: [SystemExit] (raised by [sys.exit])
    and every other exception. *)
Inductive exn : Type :=
  | SystemExit (msg : string)
  | Exception.

Inductive result (A : Type) : Type :=
  | Return (a : A)
  | Raise (e : exn).
Arguments Return {A} a.
Arguments Raise {A} e.

(** A piece of the script: the lines it prints, and how it ends. *)
Record M (A : Type) : Type := Run { printed : list string; outcome : result A }.
Arguments Run {A} printed outcome.
Arguments printed {A} m.
Arguments outcome {A} m.

#[global] Instance M_ret : MRet M := λ A a, Run [] (Return a).

#[global] Instance M_bind : MBind M := λ A B f m,
  match outcome m with
  | Return a => Run (printed m ++ printed (f a)) (outcome (f a))
  | Raise e => Run (printed m) (Raise e)
  end.

Definition print (line : string) : M unit := Run [line] (Return ()).

Definition raise {A} (e : exn) : M A := Run [] (Raise e).

Definition sys_exit {A} (msg : string) : M A := raise (SystemExit msg).

(** [try: body except: handler].  The [except] clause is bare, so it also
    catches the [SystemExit] of a [sys.exit] inside the body. *)
Definition try_except {A} (body handler : M A) : M A :=
  match outcome body with
  | Return a => body
  | Raise _ => Run (printed body ++ printed handler) (outcome handler)
  end.

(** A computation that returns a value or raises. *)
Definition call {A} (r : option A) : M A :=
  match r with
  | Some a => mret a
  | None => raise Exception
  end.

(** [int(x)] on a float: truncation toward zero. *)
Definition py_int (x : Q) : Z := Z.quot (Qnum x) (Zpos (Qden x)).

(** The sum of a list of rationals, with no rounding. *)
Definition Qsum (w : list Q) : Q := foldr Qplus 0%Q w.

(** ** Float arithmetic

    The sequence weights are float64 numbers; a finite float is carried as
    the rational number it is.  Sums and products of floats are rounded, and
    the order in which numpy adds the entries of an array is not in the
    script: the two float operations of the script are taken as they are in
    the Python and the numpy at hand.  [None]: no finite float results (the
    operation raises, or gives an infinity or a NaN, on which [int] and
    [%i] raise). *)
Record floats : Type := {
  np_sum : list Q → option Q;
  float_times : Q → Z → option Q
}.

(** ** Command line options (the result of [parser.parse_args()]) *)

Record FilterParameters : Type := {
  max_frac_gaps_pos : Q;   (* parameters[0] *)
  max_frac_gaps_seq : Q;   (* parameters[1] *)
  min_seqid : Q;           (* parameters[2] *)
  max_seqid : Q            (* parameters[3] *)
}.

Definition default_parameters : FilterParameters :=
  {| max_frac_gaps_pos := 0.2; max_frac_gaps_seq := 0.2;
     min_seqid := 0.2; max_seqid := 0.8 |}.

Record options : Type := {
  alignment : string;
  pdbid : option string;
  chainID : string;
  species : option string;
  refseq : option string;
  refpos : option string;
  i_ref : option Z;
  parameters : FilterParameters;
  Nselect : bool;
  truncate : bool
}.

(** [options.species = None] and [options.pdbid = None]. *)
Definition clear_species (o : options) : options :=
  {| alignment := alignment o; pdbid := pdbid o; chainID := chainID o;
     species := None; refseq := refseq o; refpos := refpos o;
     i_ref := i_ref o; parameters := parameters o; Nselect := Nselect o;
     truncate := truncate o |}.

Definition clear_pdbid (o : options) : options :=
  {| alignment := alignment o; pdbid := None; chainID := chainID o;
     species := species o; refseq := refseq o; refpos := refpos o;
     i_ref := i_ref o; parameters := parameters o; Nselect := Nselect o;
     truncate := truncate o |}.

(** "A little bit of error checking/feedback for the user" (lines 92-108). *)
Definition check_options (o : options) : M options :=
  match i_ref o with
  | None =>
      o ← (if bool_decide (species o ≠ None) && bool_decide (pdbid o = None)
           then print "No PDBid, ignoring species...";; mret (clear_species o)
           else mret o);
      o ← (if bool_decide (refseq o ≠ None) && bool_decide (refpos o = None)
           then
             print "Using reference sequence but no position list provided! Just numbering positions 1 to length(sequence)";;
             if bool_decide (pdbid o ≠ None)
             then print "And...ignoring the PDB file...";; mret (clear_pdbid o)
             else mret o
           else mret o);
      if bool_decide (refseq o ≠ None) && bool_decide (refpos o ≠ None)
      then
        print "Using the reference sequence and position list...";;
        if bool_decide (pdbid o ≠ None)
        then print "And...ignoring the PDB file...";; mret (clear_pdbid o)
        else mret o
      else mret o
  | Some _ => mret o
  end.

(** ** The functions of [scaTools] the script calls

    [None] stands for a call that raises.  [MSAsearch] may also return
    something that is not a number ([Some None]); the [%i] of the line that
    reports the index then raises. *)
Record scaTools : Type := {
  readAlg : string → option (list string * list string);
  pdbSeq : string → string → option (string * list label * matrix);
  MSAsearch : list string → list string → string → option string → option (option Z);
  makeATS : list string → list label → string → Z → bool → option (list string * list label);
  chooseRefSeq : list string → option Z;
  filterSeq : list string → Z → Q → Q → Q → option (list string * list Q * list nat);
  filterPos : list string → list Q → Q → option (list string * list nat);
  randSel : list Q → Z → list nat → option (list nat);
  seqWeights : list string → option (list Q);
  lett2num : list string → option (list (list Z))
}.

(** ** Removal of sequences with non-standard amino acids (lines 114-129) *)

Definition standard_letters : string := "ACDEFGHIKLMNPQRSTVWY-".

(** [aa in s] for a character [aa]. *)
Fixpoint char_in (aa : ascii) (s : string) : bool :=
  match s with
  | EmptyString => false
  | String c s' => if Ascii.eqb aa c then true else char_in aa s'
  end.

(** The inner loop: the value of [flag] after scanning the sequence [k]. *)
Fixpoint nonstandard_flag (k : string) : bool :=
  match k with
  | EmptyString => false
  | String aa k' =>
      if negb (char_in aa standard_letters) then true else nonstandard_flag k'
  end.

(** The body of the outer loop, on the state [(alg_out, hd_out)]. *)
Definition sanitize_body (headers_full : list string) (i : nat) (k : string)
    (st : list string * list string) : option (list string * list string) :=
  let '(alg_out, hd_out) := st in
  if nonstandard_flag k then Some (alg_out, hd_out)
  else h ← headers_full !! i; Some (alg_out ++ [k], hd_out ++ [h]).

(** The outer loop: the new [sequences_full] and [headers_full]. *)
Definition sanitize (headers_full sequences_full : list string)
    : option (list string * list string) :=
  for_enum (sanitize_body headers_full) 0%nat sequences_full ([], []).

(** A sequence over the 20 amino-acid letters and the gap character. *)
Definition standard_sequence (k : string) : Prop :=
  ∀ aa, aa ∈ list_ascii_of_string k → aa ∈ list_ascii_of_string standard_letters.

(** ** Reading the position file *)

Definition newline : ascii := ascii_of_nat 10.

(** [line.rstrip('\n')]. *)
Fixpoint rstrip_newline (line : string) : string :=
  match line with
  | EmptyString => EmptyString
  | String c rest =>
      match rstrip_newline rest with
      | EmptyString => if Ascii.eqb c newline then EmptyString else String c EmptyString
      | r => String c r
      end
  end.

(** What reference resolution leaves in the script's variables.
    [dist_pdb = None]: the name [dist_pdb] was never bound. *)
Record resolved : Type := {
  r_i_ref : Z;
  r_sequences : list string;
  r_ats : list label;
  r_dist_pdb : option matrix
}.

(** The dictionary [D] stored under [db['sequence']].  An optional field
    is [None] when the script does not set the key. *)
Record database : Type := {
  D_alg : list string;
  D_hd : list string;
  D_msa_num : list (list Z);
  D_seqw : list Q;
  D_Nseq : nat;
  D_Npos : nat;
  D_ats : list label;
  D_effseqs : Q;
  D_limitseqs : bool;
  D_NseqPrelimit : nat;
  D_effseqsPrelimit : Z;
  D_distmat : option matrix;
  D_pdbid : option (option string);
  D_pdb_chainID : option string;
  D_refseq : option string;
  D_refpos : option string;
  D_i_ref : Z;
  D_trim_parameters : FilterParameters;
  D_truncate_flag : bool
}.

(** The default position list [range(len(seqs[0]))]. *)
Definition default_positions (seqs : list string) : M (list label) :=
  s0 ← call (seqs !! 0%nat);
  mret (LInt <$> range (String.length s0)).

(** [d[np.ix_(K, K)]]: entry [(a, b)] of the result is [d[K[a], K[b]]];
    [None] stands for [IndexError]. *)
Definition ix_select (d : matrix) (K : list nat) : option matrix :=
  mapM (λ a, row ← d !! a; mapM (λ b, row !! b) K) K.

(** [[l[i] for i in K]]. *)
Definition select {A} (l : list A) (K : list nat) : option (list A) :=
  mapM (λ i, l !! i) K.

(** The third argument of [randSel]:
    [[seqkeep.index(i_ref)] if i_ref in seqkeep else []]. *)
Definition keep_list (seqkeep : list nat) (i_ref : Z) : list nat :=
  match list_index i_ref (Z.of_nat <$> seqkeep) with
  | Some p => [p]
  | None => []
  end.

(** [effseqsprelimit = int(seqw0.sum())]: [np_sum] is [seqw0.sum()]. *)
Definition effseqsprelimit (fl : floats) (seqw0 : list Q) : option Z :=
  py_int <$> np_sum fl seqw0.

(** The second argument of [randSel]: [int(1.5 * effseqsprelimit)], for the
    value [eff] of [effseqsprelimit]. *)
Definition select_target (fl : floats) (eff : Z) : option Z :=
  py_int <$> float_times fl 1.5%Q eff.

(** [msa_num.shape], unpacked into two names. *)
Definition shape (msa_num : list (list Z)) : option (nat * nat) :=
  match msa_num with
  | [] => None
  | row :: _ => Some (length msa_num, length row)
  end.

Section Script.

(** The float arithmetic and the [scaTools] module in use, and the file
    system as far as the position file goes: the lines of a file, [None]
    when [open] or the iteration raises. *)
Variable fl : floats.
Variable sca : scaTools.
Variable file_lines : string → option (list string).

(** [with open(path,'r') as f: ats_tmp = [line.rstrip('\n') for line in f]] *)
Definition read_positions (path : string) : M (list label) :=
  lines ← call (file_lines path);
  mret ((λ line, LStr (rstrip_newline line)) <$> (lines : list string)).

(** [i_ref = sca.MSAsearch(...)] followed by the lines that report the
    index, the header and the sequence found. *)
Definition search_and_report (headers_full sequences_full : list string)
    (seq : string) (sp : option string) : M Z :=
  r ← call (MSAsearch sca headers_full sequences_full seq sp);
  i ← call r;
  print ("reference sequence index is: " +:+ pretty i);;
  h ← call (py_index headers_full i);
  print h;;
  s ← call (py_index sequences_full i);
  print s;;
  mret i.

(** The part of the PDB branch that settles [i_ref] (lines 143-167). *)
Definition find_reference (sp : option string)
    (headers_full sequences_full : list string) (seq_pdb : string) : M Z :=
  match sp with
  | Some s =>
      try_except
        (print "Finding reference sequence using species-based best match..";;
         search_and_report headers_full sequences_full seq_pdb (Some s))
        (print "Cant find the reference sequence using species-based best_match! Using global MSAsearch...";;
         try_except
           (search_and_report headers_full sequences_full seq_pdb None)
           (sys_exit "Error!!  Can't find reference sequence..."))
  | None =>
      try_except
        (print "Finding reference sequence using global MSAsearch...";;
         search_and_report headers_full sequences_full seq_pdb None)
        (sys_exit "Error!!  Can't find reference sequence...")
  end.

(** Branch [options.pdbid is not None] (lines 141-182). *)
Definition resolve_pdb (o : options) (pdb : string)
    (headers_full sequences_full : list string) : M resolved :=
  try_except
    ('(seq_pdb, ats_pdb, dist_pdb) ← call (pdbSeq sca pdb (chainID o));
     i ← find_reference (species o) headers_full sequences_full seq_pdb;
     '(sequences, ats) ← call (makeATS sca sequences_full ats_pdb seq_pdb i (truncate o));
     dist_new ← call (remap ats ats_pdb dist_pdb);
     mret {| r_i_ref := i; r_sequences := sequences; r_ats := ats;
             r_dist_pdb := Some dist_new |})
    (sys_exit "Error!!! Something wrong with PDBid or path...").

(** The position list of the reference-sequence branch (lines 190-199). *)
Definition refseq_positions (o : options) (sequences_full : list string)
    : M (list label) :=
  match refpos o with
  | Some path =>
      try_except
        (read_positions path)
        (print "Error reading reference position file! Using default numbering 1..N";;
         default_positions sequences_full)
  | None =>
      print "No reference position list provided.  Using default numbering 1..N";;
      default_positions sequences_full
  end.

(** Branch [options.refseq is not None] (lines 183-202). *)
Definition resolve_refseq (o : options) (rs : string)
    (headers_full sequences_full : list string) : M resolved :=
  print "Finding reference sequence using provided sequence file...";;
  try_except
    ('(h_tmp, s_tmp) ← call (readAlg sca rs);
     s0 ← call (s_tmp !! 0%nat);
     r ← call (MSAsearch sca headers_full sequences_full s0 None);
     i ← call r;
     print ("reference sequence index is: " +:+ pretty i);;
     h ← call (py_index headers_full i);
     print h;;
     ats_tmp ← refseq_positions o sequences_full;
     '(sequences, ats) ← call (makeATS sca sequences_full ats_tmp s0 i (truncate o));
     mret {| r_i_ref := i; r_sequences := sequences; r_ats := ats;
             r_dist_pdb := None |})
    (sys_exit "Error!!  Can't find reference sequence...").

(** No index, no PDB, no reference sequence (lines 203-208). *)
Definition resolve_auto (headers_full sequences_full : list string) : M resolved :=
  i ← call (chooseRefSeq sca sequences_full);
  h ← call (py_index headers_full i);
  print ("No reference sequence given, chose as default (" +:+ pretty i +:+ "): " +:+ h);;
  ats ← default_positions sequences_full;
  mret {| r_i_ref := i; r_sequences := sequences_full; r_ats := ats;
          r_dist_pdb := None |}.

(** The position list of the explicit-index branch (lines 215-219). *)
Definition index_positions (o : options) (sequences_ori : list string)
    : M (list label) :=
  match refpos o with
  | Some path => read_positions path
  | None => default_positions sequences_ori
  end.

(** The user gave [i_ref] (lines 209-222). *)
Definition resolve_index (o : options) (i : Z)
    (headers_full sequences_full sequences_ori : list string) : M resolved :=
  print ("using provided reference index " +:+ pretty i);;
  h ← call (py_index headers_full i);
  print h;;
  s_tmp ← call (py_index sequences_ori i);
  try_except
    (ats_tmp ← index_positions o sequences_ori;
     '(sequences, ats) ← call (makeATS sca sequences_full ats_tmp s_tmp i (truncate o));
     mret {| r_i_ref := i; r_sequences := sequences; r_ats := ats;
             r_dist_pdb := None |})
    (sys_exit "Error!!  Can't find reference sequence...").

(** Lines 138-222: which branch runs. *)
Definition resolve_reference (o : options)
    (headers_full sequences_full sequences_ori : list string) : M resolved :=
  match i_ref o with
  | None =>
      match pdbid o with
      | Some pdb => resolve_pdb o pdb headers_full sequences_full
      | None =>
          match refseq o with
          | Some rs => resolve_refseq o rs headers_full sequences_full
          | None => resolve_auto headers_full sequences_full
          end
      end
  | Some i => resolve_index o i headers_full sequences_full sequences_ori
  end.

(** The variables that sequence and position filtering leave behind. *)
Record filtered : Type := {
  f_headers : list string;
  f_alg0 : list string;
  f_seqw0 : list Q;
  f_seqkeep : list nat;
  f_alg1 : list string;
  f_iposkeep : list nat;
  f_ats : list label;
  f_distmat : option matrix
}.

(** [try: dist_pdb; distmat = dist_pdb[np.ix_(iposkeep, iposkeep)]
    except: distmat = None] *)
Definition reslice_distmat (dist_pdb : option matrix) (iposkeep : list nat)
    : option matrix :=
  d ← dist_pdb; ix_select d iposkeep.

(** Lines 224-252: sequence filtering, position filtering, and the
    re-slicing of the headers, of the ATS and of the distance matrix.
    After reference resolution [i_ref] is a number in every run that gets
    here, so [filterSeq] is always called with it. *)
Definition filter_stage (o : options) (headers_full : list string)
    (r : resolved) : M filtered :=
  s0 ← call (r_sequences r !! 0%nat);
  print ("Conducting sequence and position filtering: alignment size is "
         +:+ pretty (length (r_sequences r)) +:+ " seqs, "
         +:+ pretty (String.length s0) +:+ " pos");;
  try_except
    (d ← call (r_dist_pdb r);
     d0 ← call (d !! 0%nat);
     print ("ATS and distmat size - ATS: " +:+ pretty (length (r_ats r))
            +:+ ", distmat: " +:+ pretty (length d) +:+ " x "
            +:+ pretty (length d0)))
    (print ("ATS should also have " +:+ pretty (String.length s0)
            +:+ " positions - ATS: " +:+ pretty (length (r_ats r))));;
  '(alg0, seqw0, seqkeep) ←
    call (filterSeq sca (r_sequences r) (r_i_ref r)
            (max_frac_gaps_seq (parameters o)) (min_seqid (parameters o))
            (max_seqid (parameters o)));
  headers ← call (select headers_full seqkeep);
  '(alg1, iposkeep) ← call (filterPos sca alg0 seqw0 (max_frac_gaps_pos (parameters o)));
  ats ← call (select (r_ats r) iposkeep);
  mret {| f_headers := headers; f_alg0 := alg0; f_seqw0 := seqw0;
          f_seqkeep := seqkeep;
          f_alg1 := alg1; f_iposkeep := iposkeep; f_ats := ats;
          f_distmat := reslice_distmat (r_dist_pdb r) iposkeep |}.

(** Lines 259-266: the optional down-selection, [eff] the value of
    [effseqsprelimit]. *)
Definition select_stage (o : options) (i : Z) (eff : Z) (f : filtered)
    : M (list string * list string) :=
  if Nselect o then
    target ← call (select_target fl eff);
    seqsel ← call (randSel sca (f_seqw0 f) target (keep_list (f_seqkeep f) i));
    alg ← call (select (f_alg1 f) seqsel);
    hd ← call (select (f_headers f) seqsel);
    mret (alg, hd)
  else mret (f_alg1 f, f_headers f).

(** The lines written to the FASTA file (lines 295-298). *)
Definition fasta_lines (alg hd : list string) : option (list string) :=
  records ← mapM (λ i, h ← hd !! i; a ← alg !! i;
                       Some [">" +:+ h +:+ String newline EmptyString;
                             a +:+ String newline EmptyString])
                 (seq 0 (length alg));
  Some (mjoin records).

(** What a run that reaches the end has produced. *)
Record output : Type := {
  out_fasta : list string;
  out_db : database
}.

(** The script, from the parsed options to the dictionary it pickles. *)
Definition main (o : options) : M output :=
  o ← check_options o;
  '(headers_full, sequences_full) ← call (readAlg sca (alignment o));
  s0 ← call (sequences_full !! 0%nat);
  print ("Loaded alignment of " +:+ pretty (length headers_full)
         +:+ " sequences, " +:+ pretty (String.length s0) +:+ " positions.");;
  print "Checking alignment for non-standard amino acids";;
  '(alg_out, hd_out) ← call (sanitize headers_full sequences_full);
  let headers_full := hd_out in
  let sequences_ori := alg_out in
  print ("Alignment size after removing sequences with non-standard amino acids: "
         +:+ pretty (length sequences_ori));;
  print "Trimming alignment for highly gapped positions (80% or more).";;
  '(sequences_full, poskeep) ← call (filterPos sca sequences_ori [1%Q] 0.8%Q);
  s0 ← call (sequences_full !! 0%nat);
  print ("Alignment size post-trimming: " +:+ pretty (String.length s0) +:+ " positions");;
  r ← resolve_reference o headers_full sequences_full sequences_ori;
  f ← filter_stage o headers_full r;
  eff ← call (effseqsprelimit fl (f_seqw0 f));
  a0 ← call (f_alg1 f !! 0%nat);
  print ("After filtering: alignment size is " +:+ pretty (length (f_alg1 f))
         +:+ " seqs, " +:+ pretty eff
         +:+ " effective seqs, " +:+ pretty (String.length a0) +:+ " pos");;
  '(alg, hd) ← select_stage o (r_i_ref r) eff f;
  seqw ← call (seqWeights sca alg);
  msa_num ← call (lett2num sca alg);
  '(nseq, npos) ← call (shape msa_num);
  print "Final alignment parameters:";;
  print ("Number of sequences: M = " +:+ pretty nseq);;
  effseqs ← call (np_sum fl seqw);
  print ("Number of effective sequences: M' = " +:+ pretty (py_int effseqs));;
  print ("Number of alignment positions: L = " +:+ pretty npos);;
  match f_distmat f with
  | Some distmat =>
      print ("Number of positions in the ats: " +:+ pretty (length (f_ats f)));;
      print ("Number of structure positions mapped: "
             +:+ pretty (length (filter (λ k, k ≠ gap) (f_ats f))));;
      d0 ← call (distmat !! 0%nat);
      print ("Size of the distance matrix: " +:+ pretty (length distmat)
             +:+ " x " +:+ pretty (length d0))
  | None => mret ()
  end;;
  fasta ← call (fasta_lines alg hd);
  mret {| out_fasta := fasta;
          out_db :=
            {| D_alg := alg; D_hd := hd; D_msa_num := msa_num; D_seqw := seqw;
               D_Nseq := nseq; D_Npos := npos; D_ats := f_ats f;
               D_effseqs := effseqs; D_limitseqs := Nselect o;
               D_NseqPrelimit := length (f_alg1 f);
               D_effseqsPrelimit := eff;
               D_distmat := f_distmat f;
               D_pdbid := (λ _, pdbid o) <$> f_distmat f;
               D_pdb_chainID := (λ _, chainID o) <$> f_distmat f;
               D_refseq := refseq o; D_refpos := refpos o;
               D_i_ref := r_i_ref r;
               D_trim_parameters := parameters o;
               D_truncate_flag := truncate o |} |}.

End Script.

(** ** predicted_single_HF_mutations.py: [merge_data] *)

(** An entry of [freq_data]: (ref_aa, highest_freq_aa, freq_val).  [F] is
    the type of the frequency values: [merge_data] passes them on and never
    looks at them. *)
Abbreviation freq_entry F := (string * string * F)%type.
(** An entry of [dssp_data]: (pos, ref_aa, ss). *)
Abbreviation dssp_entry := (Z * string * string)%type.
(** An entry of the result:
    (pos_counter, ref_aa_final, highest_freq_aa, freq_val, ss). *)
Abbreviation merged_entry F := (Z * string * string * F * string)%type.

Section Merge.

Context {F : Type}.

(** The variables the loop updates. *)
Record merge_state : Type := {
  merged : list (merged_entry F);
  j : nat;
  pos_counter : Z
}.

(** One iteration of [for i in range(len(freq_data))], on [freq_data[i]]. *)
Definition merge_step (dssp_data : list dssp_entry) (st : merge_state)
    (e : freq_entry F) : merge_state :=
  let '(ref_aa_freq, highest_freq_aa, freq_val) := e in
  if decide (ref_aa_freq = "X") then
    {| merged := merged st ++ [(pos_counter st, "X", highest_freq_aa, freq_val, "NA")];
       j := j st;
       pos_counter := pos_counter st + 1 |}
  else
    match dssp_data !! j st with
    | Some (_, dssp_ref, ss) =>
        {| merged := merged st ++ [(pos_counter st, dssp_ref, highest_freq_aa, freq_val, ss)];
           j := S (j st);
           pos_counter := pos_counter st + 1 |}
    | None =>
        {| merged := merged st ++ [(pos_counter st, ref_aa_freq, highest_freq_aa, freq_val, "NA")];
           j := j st;
           pos_counter := pos_counter st + 1 |}
    end.

Definition merge_loop (dssp_data : list dssp_entry)
    (freq_data : list (freq_entry F)) (st : merge_state) : merge_state :=
  fold_left (merge_step dssp_data) freq_data st.

Definition merge_data (freq_data : list (freq_entry F))
    (dssp_data : list dssp_entry) : list (merged_entry F) :=
  merged (merge_loop dssp_data freq_data
            {| merged := []; j := 0%nat; pos_counter := 1 |}).

(** The number of entries of [l] whose reference amino acid is not ['X']:
    the number of DSSP lines the loop has asked for after [l]. *)
Definition non_X (l : list (freq_entry F)) : nat :=
  length (filter (λ e : freq_entry F, e.1.1 ≠ "X") l).

(** What [merge_data] emits for the entry [e] at index [i] of [freq_data],
    [n] entries before it having a reference amino acid other than
    ['X']. *)
Definition merged_at (dssp_data : list dssp_entry) (i n : nat)
    (e : freq_entry F) : merged_entry F :=
  let '(ref_aa_freq, highest_freq_aa, freq_val) := e in
  if decide (ref_aa_freq = "X")
  then (Z.of_nat i + 1, "X", highest_freq_aa, freq_val, "NA")
  else match dssp_data !! n with
       | Some (_, dssp_ref, ss) =>
           (Z.of_nat i + 1, dssp_ref, highest_freq_aa, freq_val, ss)
       | None => (Z.of_nat i + 1, ref_aa_freq, highest_freq_aa, freq_val, "NA")
       end.

End Merge.

(** ** Functions of [scaTools] described by the specification *)

(** The number of columns of an alignment: the length of its first
    sequence. *)
Definition ncols (alg : list string) : nat :=
  match alg with
  | [] => 0%nat
  | s :: _ => String.length s
  end.

Definition is_gap_char (c : option ascii) : bool :=
  bool_decide (c = Some "-"%char).

(** The gap fraction of column [i], weighted by the sequence weights. *)
Definition gap_weight (alg : list string) (w : list Q) (i : nat) : Q :=
  Qsum ((λ sw : string * Q, if is_gap_char (String.get i sw.1) then sw.2 else 0%Q)
          <$> zip alg w).

Definition gap_fraction (alg : list string) (w : list Q) (i : nat) : Q :=
  (gap_weight alg w i / Qsum (take (length alg) w))%Q.

(** [x] exceeds [y]. *)
Definition exceeds (x y : Q) : bool := negb (Qle_bool x y).

(** [''.join(s[i] for i in K)]. *)
Definition restrict (K : list nat) (s : string) : string :=
  string_of_list_ascii (omap (λ i, String.get i s) K).

(** Modelled from the spec: [filterPos] of [scaTools] is not among the
    sources.  "Remove alignment columns whose gap fraction (weighted by
    sequence weights) exceeds max_frac_gaps_pos"; the result is the
    alignment restricted to the surviving columns, and the list of their
    indices. *)
Definition filterPos_spec (alg : list string) (w : list Q) (max_fracgaps : Q)
    : list string * list nat :=
  let K := filter (λ i, ¬ exceeds (gap_fraction alg w i) max_fracgaps) (seq 0 (ncols alg)) in
  (restrict K <$> alg, K).

(** Drawing [n] elements of [pool] without replacement; [rnd] is the
    sequence of random numbers consumed, each reduced modulo the number of
    candidates left, so that every candidate is as likely as any other. *)
Fixpoint draw (pool : list nat) (n : nat) (rnd : list nat) : list nat :=
  match n with
  | O => []
  | S n' =>
      match pool !! (hd 0%nat rnd `mod` length pool)%nat with
      | Some x => x :: draw (delete (hd 0%nat rnd `mod` length pool)%nat pool) n' (tl rnd)
      | None => []
      end
  end.

(** Modelled from the spec: [randSel] of [scaTools] is not among the
    sources.  "Randomly subsample retained sequences to a target count",
    the indices that must be kept "forced into the kept set"; the
    selection is "otherwise uniform over remaining sequences, without
    replacement, and weight-agnostic". *)
Definition randSel_spec (rnd : list nat) (seqw : list Q) (target : Z)
    (keepSeq : list nat) : list nat :=
  keepSeq ++ draw (filter (λ s, s ∉ keepSeq) (seq 0 (length seqw)))
                  (Z.to_nat target - length keepSeq) rnd.

(** The labels of the columns of the reference [ref]: a gap column gets the
    sentinel, every other column the next raw label; [None] when the raw
    labels run out. *)
Fixpoint label_columns (ref : string) (raw : list label) : option (list label) :=
  match ref with
  | EmptyString => Some []
  | String c ref' =>
      if Ascii.eqb c "-" then (gap ::.) <$> label_columns ref' raw
      else match raw with
           | [] => None
           | l :: raw' => (l ::.) <$> label_columns ref' raw'
           end
  end.

(** The columns where the reference has no gap. *)
Definition nongap_columns (ref : string) : list nat :=
  filter (λ i, String.get i ref ≠ Some "-"%char) (seq 0 (String.length ref)).

(** Modelled from the spec: [makeATS] of [scaTools] is not among the
    sources.  Without truncation "all original columns are kept; columns
    where the reference has a gap receive the '-' sentinel in ATS, all
    other columns receive the corresponding raw position label, in strict
    left-to-right correspondence" (raw labels are consumed in order, one per
    non-gap reference column); with truncation the columns where the
    reference has a gap are dropped from the alignment and from the ATS.
    Too few raw labels: an error. *)
Definition makeATS_spec (sequences : list string) (refpos : list label)
    (refseq : string) (iref : Z) (truncate : bool)
    : option (list string * list label) :=
  ref ← py_index sequences iref;
  ats ← label_columns ref refpos;
  if truncate
  then Some (restrict (nongap_columns ref) <$> sequences,
             omap (λ i, ats !! i) (nongap_columns ref))
  else Some (sequences, ats).

(** ** A small [scaTools], to run the script on concrete inputs

    The alignment files and the structures are given as functions.  The
    functions of [scaTools] are not among the sources; the ones below are
    small implementations of the contracts the specification gives them. *)
Module Toy.

(** A sequence without its gap characters. *)
Definition ungap (s : string) : string :=
  string_of_list_ascii (filter (λ c, c ≠ "-"%char) (list_ascii_of_string s)).

(** The number of gap characters of a sequence. *)
Definition count_gaps (s : string) : nat :=
  length (filter (λ c, c = "-"%char) (list_ascii_of_string s)).

(** Modelled from the spec: [MSAsearch] ("bestMatchSearch(headers,
    sequences, targetSequence, speciesHint?) -> index -- fails (raises) if
    no adequate match found").  Here the match is the first sequence that
    spells the target once gaps are removed, among the headers that
    mention the species if one is given. *)
Fixpoint search (hd algn : list string) (target : string) (sp : option string)
    (i : Z) : option Z :=
  match hd, algn with
  | h :: hd', s :: algn' =>
      if bool_decide (ungap s = ungap target)
         && match sp with
            | Some x => bool_decide (is_Some (String.index 0 x h))
            | None => true
            end
      then Some i
      else search hd' algn' target sp (i + 1)
  | _, _ => None
  end.

(** Modelled from the spec: [chooseRefSeq] ("auto-select a reference
    sequence from the alignment via an external heuristic (e.g., lowest
    average gap fraction"): the first sequence with the fewest gaps. *)
Fixpoint fewest_gaps (seqs : list string) (i : nat) (best : option (nat * nat))
    : option (nat * nat) :=
  match seqs with
  | [] => best
  | s :: seqs' =>
      fewest_gaps seqs' (S i)
        (match best with
         | Some (b, g) => if (count_gaps s <? g)%nat then Some (i, count_gaps s) else Some (b, g)
         | None => Some (i, count_gaps s)
         end)
  end.

(** [n / d]. *)
Definition fraction (n d : nat) : Q := (inject_Z (Z.of_nat n) / inject_Z (Z.of_nat d))%Q.

(** The fraction of the columns of [ref] where [s] has the same letter. *)
Definition identity (s ref : string) : Q :=
  fraction (length (filter (λ p : ascii * ascii, p.1 = p.2)
                      (zip (list_ascii_of_string s) (list_ascii_of_string ref))))
           (String.length ref).

(** The gap fraction of [s] does not exceed [max_fracgaps] and its
    identity to [ref] lies between [min_seqid] and [max_seqid]. *)
Definition acceptable (max_fracgaps min_seqid max_seqid : Q) (ref s : string) : bool :=
  negb (exceeds (fraction (count_gaps s) (String.length s)) max_fracgaps)
  && negb (exceeds min_seqid (identity s ref))
  && negb (exceeds (identity s ref) max_seqid).

(** Modelled from the spec: [filterSeq] ("remove sequences whose gap
    fraction exceeds max_frac_gaps_seq, or whose identity to the reference
    falls outside [min_seqid_to_ref, max_seqid_to_ref]; retained sequences
    are returned along with per-sequence weights and the kept-index
    list").  Every kept sequence gets weight one. *)
Definition filter_seq (alg : list string) (iref : Z)
    (max_fracgaps min_seqid max_seqid : Q)
    : option (list string * list Q * list nat) :=
  ref ← py_index alg iref;
  let keep := filter (λ i, from_option (acceptable max_fracgaps min_seqid max_seqid ref)
                                       false (alg !! i))
                     (seq 0 (length alg)) in
  Some (omap (λ i, alg !! i) keep, replicate (length keep) 1%Q, keep).

(** A weight list of one element stands for equal weights (the call of
    line 133 passes [[1]]). *)
Definition broadcast (w : list Q) (n : nat) : list Q :=
  match w with
  | [x] => replicate n x
  | _ => w
  end.

(** The number of a letter: 1 to 20 for the amino acids, 0 for a gap. *)
Definition letter_code (c : ascii) : Z :=
  match String.index 0 (String c EmptyString) "ACDEFGHIKLMNPQRSTVWY" with
  | Some i => Z.of_nat i + 1
  | None => 0
  end.

Definition sca (alignments : string → option (list string * list string))
    (structures : string → string → option (string * list label * matrix))
    (rnd : list nat) : scaTools :=
  {| readAlg := alignments;
     pdbSeq := structures;
     MSAsearch := λ hd algn target sp,
       match search hd algn target sp 0 with
       | Some i => Some (Some i)
       | None => None
       end;
     makeATS := makeATS_spec;
     chooseRefSeq := λ seqs, (λ b : nat * nat, Z.of_nat b.1) <$> fewest_gaps seqs 0 None;
     filterSeq := filter_seq;
     filterPos := λ alg w m, Some (filterPos_spec alg (broadcast w (length alg)) m);
     randSel := λ w target keep, Some (randSel_spec rnd w target keep);
     seqWeights := λ alg, Some (replicate (length alg) 1%Q);
     lett2num := λ alg, Some ((λ s, letter_code <$> list_ascii_of_string s) <$> alg) |}.

(** Three sequences over five columns, the second one without gaps, and
    a file with the second sequence alone. *)
Definition scenario_alignment : string → option (list string * list string) :=
  λ path, if bool_decide (path = "Inputs/aln.fasta")
          then Some (["s1|Homo sapiens"; "s2|Mus musculus"; "s3|Homo sapiens"],
                     ["A-DEF"; "ACDEF"; "A-DE-"])
          else if bool_decide (path = "Inputs/ref.fasta")
          then Some (["ref"], ["ACDEF"])
          else None.

Definition no_structure : string → string → option (string * list label * matrix) :=
  λ _ _, None.

(** A structure of five residues, numbered 10 to 14, 3.8 apart along the
    chain. *)
Definition chain_structure : string → string → option (string * list label * matrix) :=
  λ pdb chain,
    if bool_decide (pdb = "1ABC") && bool_decide (chain = "A")
    then Some ("ACDEF",
               [LStr "10"; LStr "11"; LStr "12"; LStr "13"; LStr "14"],
               [[0; 3.8; 7.6; 11.4; 15.2];
                [3.8; 0; 3.8; 7.6; 11.4];
                [7.6; 3.8; 0; 3.8; 7.6];
                [11.4; 7.6; 3.8; 0; 3.8];
                [15.2; 11.4; 7.6; 3.8; 0]]%Q)
    else None.

Definition no_file : string → option (list string) := λ _, None.

(** Filters that let every sequence and every column of the scenario
    through. *)
Definition lenient : FilterParameters :=
  {| max_frac_gaps_pos := 0.7; max_frac_gaps_seq := 0.5;
     min_seqid := 0.2; max_seqid := 1 |}.

(** A command line for the scenario's alignment. *)
Definition command_line (pdb sp rs rp : option string) (i : option Z)
    (nselect trunc : bool) : options :=
  {| alignment := "Inputs/aln.fasta"; pdbid := pdb; chainID := "A";
     species := sp; refseq := rs; refpos := rp; i_ref := i;
     parameters := lenient; Nselect := nselect; truncate := trunc |}.

(** Filters that drop the second column of the scenario (two gaps out
    of three). *)
Definition strict : FilterParameters :=
  {| max_frac_gaps_pos := 0.5; max_frac_gaps_seq := 0.5;
     min_seqid := 0.2; max_seqid := 1 |}.

Definition with_parameters (p : FilterParameters) (o : options) : options :=
  {| alignment := alignment o; pdbid := pdbid o; chainID := chainID o;
     species := species o; refseq := refseq o; refpos := refpos o;
     i_ref := i_ref o; parameters := p; Nselect := Nselect o;
     truncate := truncate o |}.

(** The tools over the scenario's files and structure. *)
Definition tools : scaTools := sca scenario_alignment chain_structure [].

(** Float arithmetic for the scenarios.  The weights there are whole
    numbers or small multiples of 1/4: float64 adds such numbers, in any
    order, and multiplies a small whole number by 1.5, without rounding, so
    that the exact sum and product are the float results.  On other numbers
    this is not float64. *)
Definition exact : floats :=
  {| np_sum := λ w, Some (Qsum w);
     float_times := λ x n, Some (x * inject_Z n)%Q |}.

End Toy.

(** ** predicted_single_HF_mutations.py: the mutation filter of [main] *)

Section Mutations.

Context {F : Type} `{EqDecision F}.

(** [freq_val >= threshold] on the floats of the frequency column. *)
Variable ge : F → F → bool.

(** [x[0]], the position of a merged entry. *)
Definition pos_of (e : merged_entry F) : Z := e.1.1.1.1.

(** The test of the filter loop (lines 148-158): is the entry added to
    [filtered_set]? *)
Definition is_mutation (beta gama : F) (e : merged_entry F) : bool :=
  let '(pos_counter, ref_aa, hfreq_aa, freq_val, ss) := e in
  if decide (ref_aa = "X") then false
  else if decide (ref_aa ≠ hfreq_aa) then
    if decide (ss = "C") then ge freq_val gama else ge freq_val beta
  else false.

(** [filtered_set.add(x)].  The set is kept as the list of its elements,
    without repetition. *)
Definition set_add (x : merged_entry F) (s : list (merged_entry F))
    : list (merged_entry F) :=
  if decide (x ∈ s) then s else s ++ [x].

(** The loop of lines 144-158 over [merged_list]. *)
Definition filtered_set (beta gama : F) (merged_list : list (merged_entry F))
    : list (merged_entry F) :=
  fold_left (λ s e, if is_mutation beta gama e then set_add e s else s)
            merged_list [].

(** [sorted(xs, key=lambda x: x[0])], a stable sort: an element goes before
    the elements of the same position that come after it in [xs]. *)
Fixpoint insert_by_pos (x : merged_entry F) (l : list (merged_entry F))
    : list (merged_entry F) :=
  match l with
  | [] => [x]
  | y :: l' =>
      if decide (pos_of x ≤ pos_of y)%Z then x :: l else y :: insert_by_pos x l'
  end.

Definition sorted_by_pos (xs : list (merged_entry F)) : list (merged_entry F) :=
  foldr insert_by_pos [] xs.

(** Lines 144-160, from the merged list to [filtered_list].  Python fixes
    no order for the iteration over a set: [iteration] is the order in
    which [sorted] receives the elements of [filtered_set], [None] when it
    is not an enumeration of the set. *)
Definition filtered_list (beta gama : F) (merged_list : list (merged_entry F))
    (iteration : list (merged_entry F)) : option (list (merged_entry F)) :=
  if decide (iteration ≡ₚ filtered_set beta gama merged_list)
  then Some (sorted_by_pos iteration)
  else None.

End Mutations.

(** * Properties of the embedded scripts *)

(** ** Loops and matrices *)

(** ** Loops *)

Lemma for_enum_inv {A St} (body : nat → A → St → option St)
    (P : nat → St → Prop) (l : list A) :
  ∀ i s s',
    P i s →
    (∀ k x t t', l !! k = Some x → P (i + k)%nat t →
                 body (i + k)%nat x t = Some t' → P (S (i + k)) t') →
    for_enum body i l s = Some s' →
    P (i + length l)%nat s'.
Proof.
  induction l as [|x l IH]; intros i s s' Hs Hstep Hrun; simpl in *.
  - simplify_eq. by rewrite Nat.add_0_r.
  - destruct (body i x s) as [t|] eqn:Hb; simplify_eq/=.
    replace (i + S (length l))%nat with (S i + length l)%nat by lia.
    apply (IH (S i) t s'); [| |done].
    + specialize (Hstep 0%nat x s t). rewrite Nat.add_0_r in Hstep. by apply Hstep.
    + intros k y u u' Hk Hu Hbody.
      specialize (Hstep (S k) y u u').
      replace (i + S k)%nat with (S i + k)%nat in Hstep by lia.
      by apply Hstep.
Qed.

(** ** Matrices *)

Lemma square_zeros n : square n (mat_zeros n).
Proof.
  split; [apply length_replicate|].
  intros j row [-> _]%lookup_replicate. apply length_replicate.
Qed.

Lemma mat_get_zeros n j k : (j < n)%nat → (k < n)%nat → mat_get (mat_zeros n) j k = Some 0%Q.
Proof.
  intros Hj Hk. unfold mat_get, mat_zeros.
  rewrite lookup_replicate_2 by done. simpl. by rewrite lookup_replicate_2.
Qed.

Lemma square_set n j k v m : square n m → square n (mat_set j k v m).
Proof.
  intros [Hlen Hrows]. split; [unfold mat_set; by rewrite length_alter|].
  intros j' row. unfold mat_set.
  destruct (decide (j = j')) as [->|Hne].
  - rewrite list_lookup_alter_eq. intros Hrow.
    destruct (m !! j') as [r|] eqn:Hr; simplify_eq/=.
    rewrite length_insert. eauto.
  - rewrite list_lookup_alter_ne by done. eauto.
Qed.

Lemma mat_get_set_eq n j k v m :
  square n m → (j < n)%nat → (k < n)%nat → mat_get (mat_set j k v m) j k = Some v.
Proof.
  intros [Hlen Hrows] Hj Hk. unfold mat_get, mat_set.
  rewrite list_lookup_alter_eq.
  destruct (lookup_lt_is_Some_2 m j) as [row Hrow]; [lia|].
  rewrite Hrow. simpl. apply list_lookup_insert_eq. rewrite (Hrows _ _ Hrow). done.
Qed.

Lemma mat_get_set_ne j k v m j' k' :
  (j', k') ≠ (j, k) → mat_get (mat_set j k v m) j' k' = mat_get m j' k'.
Proof.
  intros Hne. unfold mat_get, mat_set.
  destruct (decide (j = j')) as [->|Hj].
  - rewrite list_lookup_alter_eq. destruct (m !! j'); simpl; [|done].
    apply list_lookup_insert_ne. congruence.
  - by rewrite list_lookup_alter_ne.
Qed.

Lemma remap_cell_spec ats_pdb dist_pdb n j p1 k p2 m m' :
  square n m → (j < n)%nat → (k < n)%nat →
  remap_cell ats_pdb dist_pdb j p1 k p2 m = Some m' →
  square n m'
  ∧ (∀ j' k', (j', k') ≠ (j, k) → mat_get m' j' k' = mat_get m j' k')
  ∧ mat_get m' j k =
      (if decide (k = j) then mat_get m j k
       else remapped_entry ats_pdb dist_pdb j p1 k p2).
Proof.
  intros Hsq Hj Hk Hcell. unfold remap_cell in Hcell. unfold remapped_entry.
  repeat case_decide; simplify_eq; try done.
  destruct (is_gap p1 || is_gap p2).
  - simplify_eq. split_and!.
    + by apply square_set.
    + intros. by apply mat_get_set_ne.
    + by apply (mat_get_set_eq n).
  - destruct (raw_distance ats_pdb dist_pdb p1 p2) as [v|]; simplify_eq/=.
    split_and!.
    + by apply square_set.
    + intros. by apply mat_get_set_ne.
    + by apply (mat_get_set_eq n).
Qed.

Section Remap.
Variables (ats ats_pdb : list label) (dist_pdb : matrix).
Local Abbreviation n := (length ats).

Lemma remap_row j p1 m0 m1 :
  square n m0 → ats !! j = Some p1 →
  (∀ k, (k < n)%nat → mat_get m0 j k = Some 0%Q) →
  for_enum (λ k pos2 dist_new, remap_cell ats_pdb dist_pdb j p1 k pos2 dist_new)
           0%nat ats m0 = Some m1 →
  square n m1
  ∧ (∀ j' k', j' ≠ j → mat_get m1 j' k' = mat_get m0 j' k')
  ∧ (∀ k p2, ats !! k = Some p2 →
             mat_get m1 j k = remapped_entry ats_pdb dist_pdb j p1 k p2).
Proof.
  intros Hsq Hp1 Hzero Hrun.
  assert (Hj : (j < n)%nat) by (by apply lookup_lt_Some in Hp1).
  pose (P := λ (k : nat) (m : matrix),
    square n m
    ∧ (∀ j' k', j' ≠ j → mat_get m j' k' = mat_get m0 j' k')
    ∧ (∀ k' p2, (k' < k)%nat → ats !! k' = Some p2 →
                mat_get m j k' = remapped_entry ats_pdb dist_pdb j p1 k' p2)
    ∧ (∀ k', (k ≤ k')%nat → (k' < n)%nat → mat_get m j k' = Some 0%Q)).
  assert (HP : P (0 + length ats)%nat m1).
  { eapply (for_enum_inv _ P); [| |exact Hrun].
    - unfold P. split_and!; [done|done|intros; lia|intros; by apply Hzero].
    - simpl. intros k p2 t t' Hk (Ht & Hother & Hdone & Htodo) Hcell.
      assert (Hkn : (k < n)%nat) by (by apply lookup_lt_Some in Hk).
      destruct (remap_cell_spec _ _ _ _ _ _ _ _ _ Ht Hj Hkn Hcell)
        as (Ht' & Hframe & Hnew).
      unfold P. split_and!.
      + done.
      + intros j' k' Hj'. rewrite Hframe by congruence. by apply Hother.
      + intros k' p2' Hlt Hk'.
        destruct (decide (k' = k)) as [->|Hne].
        * simplify_eq. rewrite Hnew. case_decide as Hkj; [|done].
          subst. rewrite Htodo by lia. unfold remapped_entry.
          by rewrite decide_True.
        * rewrite Hframe by congruence. apply Hdone; [lia|done].
      + intros k' Hle Hlt. rewrite Hframe by (intros [= ]; lia).
        apply Htodo; lia. }
  destruct HP as (H1 & H2 & H3 & _). split_and!; [done|done|].
  intros k p2 Hk. apply H3; [|done]. apply lookup_lt_Some in Hk. simpl. lia.
Qed.

Lemma remap_entries D :
  remap ats ats_pdb dist_pdb = Some D →
  square n D
  ∧ ∀ j k p1 p2, ats !! j = Some p1 → ats !! k = Some p2 →
      mat_get D j k = remapped_entry ats_pdb dist_pdb j p1 k p2.
Proof.
  unfold remap. intros Hrun.
  pose (P := λ (j : nat) (m : matrix),
    square n m
    ∧ (∀ j' k' p1 p2, (j' < j)%nat → ats !! j' = Some p1 → ats !! k' = Some p2 →
                      mat_get m j' k' = remapped_entry ats_pdb dist_pdb j' p1 k' p2)
    ∧ (∀ j' k', (j ≤ j')%nat → (j' < n)%nat → (k' < n)%nat →
                mat_get m j' k' = Some 0%Q)).
  assert (HP : P (0 + length ats)%nat D).
  { eapply (for_enum_inv _ P); [| |exact Hrun].
    - unfold P. split_and!; [apply square_zeros|intros; lia|].
      intros. by apply mat_get_zeros.
    - simpl. intros j p1 t t' Hj (Ht & Hdone & Htodo) Hrow.
      assert (Hjn : (j < n)%nat) by (by apply lookup_lt_Some in Hj).
      destruct (remap_row j p1 t t' Ht Hj) as (Ht' & Hframe & Hnew); [|done|].
      { intros k Hk. apply Htodo; [lia|done|done]. }
      unfold P. split_and!.
      + done.
      + intros j' k' q1 q2 Hlt Hj' Hk'.
        destruct (decide (j' = j)) as [->|Hne].
        * simplify_eq. by apply Hnew.
        * rewrite Hframe by done. apply Hdone; [lia|done|done].
      + intros j' k' Hle Hlt Hk'. rewrite Hframe by lia. apply Htodo; [lia|done|done]. }
  destruct HP as (H1 & H2 & _). split; [done|].
  intros j k p1 p2 Hj Hk. apply H2; [|done|done].
  apply lookup_lt_Some in Hj. simpl. lia.
Qed.
End Remap.

(** ** The monad of the script *)

Lemma outcome_ret {A} (a : A) : outcome (mret a) = Return a.
Proof. done. Qed.

Lemma outcome_bind {A B} (m : M A) (f : A → M B) :
  outcome (m ≫= f)
  = match outcome m with Return a => outcome (f a) | Raise e => Raise e end.
Proof. unfold mbind, M_bind. by destruct (outcome m). Qed.

Lemma outcome_print line : outcome (print line) = Return ().
Proof. done. Qed.

Lemma outcome_call {A} (r : option A) :
  outcome (call r) = match r with Some a => Return a | None => Raise Exception end.
Proof. by destruct r. Qed.

Lemma outcome_try_except {A} (body handler : M A) :
  outcome (try_except body handler)
  = match outcome body with Return a => Return a | Raise _ => outcome handler end.
Proof. unfold try_except. by destruct (outcome body) eqn:E. Qed.

Lemma outcome_sys_exit {A} msg : outcome (sys_exit (A := A) msg) = Raise (SystemExit msg).
Proof. done. Qed.

Lemma printed_bind_Raise {A B} (m : M A) (f : A → M B) e :
  outcome m = Raise e → printed (m ≫= f) = printed m.
Proof. unfold mbind, M_bind. by intros ->. Qed.

Lemma printed_bind_Return {A B} (m : M A) (f : A → M B) a :
  outcome m = Return a → printed (m ≫= f) = printed m ++ printed (f a).
Proof. unfold mbind, M_bind. by intros ->. Qed.

Lemma printed_try_except_Raise {A} (body handler : M A) e :
  outcome body = Raise e →
  printed (try_except body handler) = printed body ++ printed handler.
Proof. unfold try_except. by intros ->. Qed.

Create Rewrite HintDb outcome.
#[local] Hint Rewrite @outcome_ret @outcome_bind outcome_print @outcome_call
  @outcome_try_except @outcome_sys_exit : outcome.

Ltac run := repeat (progress (autorewrite with outcome; cbv beta iota zeta)).

(** ** The species hint (lines 143-158) *)

Section Species.
Variable sca : scaTools.
Variables (headers_full sequences_full : list string).

Lemma search_and_report_Return seq sp i :
  outcome (search_and_report sca headers_full sequences_full seq sp) = Return i →
  MSAsearch sca headers_full sequences_full seq sp = Some (Some i).
Proof.
  unfold search_and_report. run.
  destruct (MSAsearch _ _ _ _ _) as [[k|]|]; run; try done.
  destruct (py_index headers_full k); run; [|done].
  destruct (py_index sequences_full k); run; [|done].
  by intros [= ->].
Qed.

Lemma search_and_report_found seq sp i :
  MSAsearch sca headers_full sequences_full seq sp = Some (Some i) →
  is_Some (py_index headers_full i) → is_Some (py_index sequences_full i) →
  outcome (search_and_report sca headers_full sequences_full seq sp) = Return i.
Proof.
  intros Hs [h Hh] [s Hs']. unfold search_and_report. run.
  rewrite Hs. run. rewrite Hh. run. by rewrite Hs'.
Qed.

Lemma search_and_report_fails seq sp :
  MSAsearch sca headers_full sequences_full seq sp = None
  ∨ MSAsearch sca headers_full sequences_full seq sp = Some None →
  outcome (search_and_report sca headers_full sequences_full seq sp) = Raise Exception.
Proof. unfold search_and_report. run. by intros [-> | ->]. Qed.

Lemma find_reference_None seq :
  outcome (find_reference sca None headers_full sequences_full seq)
  = match outcome (search_and_report sca headers_full sequences_full seq None) with
    | Return i => Return i
    | Raise _ => Raise (SystemExit "Error!!  Can't find reference sequence...")
    end.
Proof. unfold find_reference. run. by destruct (outcome _). Qed.

Lemma find_reference_fallback seq sp e :
  outcome (search_and_report sca headers_full sequences_full seq (Some sp)) = Raise e →
  outcome (find_reference sca (Some sp) headers_full sequences_full seq)
  = outcome (find_reference sca None headers_full sequences_full seq).
Proof.
  intros Hfail. rewrite find_reference_None. unfold find_reference. run.
  rewrite Hfail. by destruct (outcome _).
Qed.
End Species.

(** C7.  A PDB identifier and a species hint are given and the structure has
    been fetched.  When the species-constrained search fails (the search
    raises, returns no index, or returns an index the report of which
    raises), the script says so and searches again without the species: when
    that search returns an index that the headers and sequences have, this
    index is the reference index, and the branch returns with it once
    [makeATS] and the remap have gone through.  The branch ends exactly as it
    ends without the species hint, and when the unconstrained search fails
    too the run stops with [sys.exit]. *)
Theorem species_fallback (sca : scaTools) (o : options) (pdb : string)
    (headers_full sequences_full : list string) (sp seq_pdb : string)
    (ats_pdb : list label) (dist_pdb : matrix) (e : exn) :
  species o = Some sp →
  pdbSeq sca pdb (chainID o) = Some (seq_pdb, ats_pdb, dist_pdb) →
  outcome (search_and_report sca headers_full sequences_full seq_pdb (Some sp)) = Raise e →
  outcome (resolve_pdb sca o pdb headers_full sequences_full)
  = outcome (resolve_pdb sca (clear_species o) pdb headers_full sequences_full)
  ∧ "Cant find the reference sequence using species-based best_match! Using global MSAsearch..."
    ∈ printed (find_reference sca (Some sp) headers_full sequences_full seq_pdb)
  ∧ (∀ i,
        MSAsearch sca headers_full sequences_full seq_pdb None = Some (Some i) →
        is_Some (py_index headers_full i) → is_Some (py_index sequences_full i) →
        outcome (find_reference sca (Some sp) headers_full sequences_full seq_pdb)
        = Return i
        ∧ ∀ sequences ats dist_new,
            makeATS sca sequences_full ats_pdb seq_pdb i (truncate o)
            = Some (sequences, ats) →
            remap ats ats_pdb dist_pdb = Some dist_new →
            outcome (resolve_pdb sca o pdb headers_full sequences_full)
            = Return {| r_i_ref := i; r_sequences := sequences; r_ats := ats;
                        r_dist_pdb := Some dist_new |})
  ∧ (∀ i r,
        MSAsearch sca headers_full sequences_full seq_pdb None = Some (Some i) →
        outcome (resolve_pdb sca o pdb headers_full sequences_full) = Return r →
        r_i_ref r = i)
  ∧ (MSAsearch sca headers_full sequences_full seq_pdb None = None
     ∨ MSAsearch sca headers_full sequences_full seq_pdb None = Some None →
     outcome (find_reference sca (Some sp) headers_full sequences_full seq_pdb)
     = Raise (SystemExit "Error!!  Can't find reference sequence...")
     ∧ outcome (resolve_pdb sca o pdb headers_full sequences_full)
       = Raise (SystemExit "Error!!! Something wrong with PDBid or path...")).
Proof.
  intros Hsp Hpdb Hfail.
  assert (Hout : outcome (resolve_pdb sca o pdb headers_full sequences_full)
    = match outcome (find_reference sca None headers_full sequences_full seq_pdb) with
      | Return i =>
          match makeATS sca sequences_full ats_pdb seq_pdb i (truncate o) with
          | Some (sequences, ats) =>
              match remap ats ats_pdb dist_pdb with
              | Some dist_new =>
                  Return {| r_i_ref := i; r_sequences := sequences; r_ats := ats;
                            r_dist_pdb := Some dist_new |}
              | None => Raise (SystemExit "Error!!! Something wrong with PDBid or path...")
              end
          | None => Raise (SystemExit "Error!!! Something wrong with PDBid or path...")
          end
      | Raise _ => Raise (SystemExit "Error!!! Something wrong with PDBid or path...")
      end).
  { unfold resolve_pdb. run. rewrite Hpdb. run. rewrite Hsp.
    rewrite (find_reference_fallback _ _ _ _ _ _ Hfail).
    destruct (outcome (find_reference _ _ _ _ _)) as [i|]; [|done]. run.
    destruct (makeATS _ _ _ _ _ _) as [[sequences ats]|]; run; [|done].
    by destruct (remap _ _ _). }
  split_and!.
  - rewrite Hout. unfold resolve_pdb.
    change (chainID (clear_species o)) with (chainID o).
    change (species (clear_species o)) with (@None string).
    change (truncate (clear_species o)) with (truncate o).
    run. rewrite Hpdb. run.
    destruct (outcome (find_reference _ _ _ _ _)) as [i|]; [|done]. run.
    destruct (makeATS _ _ _ _ _ _) as [[sequences ats]|]; run; [|done].
    by destruct (remap _ _ _).
  - unfold find_reference.
    erewrite printed_try_except_Raise; last first.
    { run. exact Hfail. }
    apply elem_of_app. right.
    erewrite printed_bind_Return by apply outcome_print.
    simpl. apply elem_of_cons. by left.
  - intros i Hsearch Hh Hs.
    pose proof (search_and_report_found _ _ _ _ _ _ Hsearch Hh Hs) as Hrep.
    assert (Hfind : outcome (find_reference sca None headers_full sequences_full seq_pdb)
                    = Return i).
    { by rewrite find_reference_None, Hrep. }
    split.
    + by rewrite (find_reference_fallback _ _ _ _ _ _ Hfail).
    + intros sequences ats dist_new Hats Hmap.
      by rewrite Hout, Hfind, Hats, Hmap.
  - intros i r Hsearch. rewrite Hout, find_reference_None.
    destruct (outcome (search_and_report sca headers_full sequences_full seq_pdb None))
      as [i'|] eqn:Hrep; [|by simpl].
    apply search_and_report_Return in Hrep. simplify_eq. simpl.
    destruct (makeATS _ _ _ _ _ _) as [[sequences ats]|]; [|done].
    destruct (remap _ _ _); [|done]. by intros [= <-].
  - intros Hnone.
    rewrite Hout, (find_reference_fallback _ _ _ _ _ _ Hfail), find_reference_None.
    by rewrite (search_and_report_fails _ _ _ _ _ Hnone).
Qed.

Lemma species_fallback_witness :
  let o := Toy.command_line (Some "1ABC") (Some "Danio rerio") None None None false false in
  let hd := ["s1|Homo sapiens"; "s2|Mus musculus"; "s3|Homo sapiens"] in
  let seqs := ["A-DEF"; "ACDEF"; "A-DE-"] in
  MSAsearch Toy.tools hd seqs "ACDEF" (Some "Danio rerio") = None
  ∧ MSAsearch Toy.tools hd seqs "ACDEF" None = Some (Some 1)
  ∧ outcome (find_reference Toy.tools (Some "Danio rerio") hd seqs "ACDEF") = Return 1
  ∧ (∃ r, outcome (resolve_pdb Toy.tools o "1ABC" hd seqs) = Return r ∧ r_i_ref r = 1)
  ∧ "Cant find the reference sequence using species-based best_match! Using global MSAsearch..."
    ∈ printed (find_reference Toy.tools (Some "Danio rerio") hd seqs "ACDEF")
  ∧ outcome (resolve_pdb Toy.tools o "1ABC" hd seqs)
    = outcome (resolve_pdb Toy.tools (clear_species o) "1ABC" hd seqs).
Proof.
  intros o hd seqs.
  destruct (species_fallback Toy.tools o "1ABC" hd seqs "Danio rerio" "ACDEF"
              [LStr "10"; LStr "11"; LStr "12"; LStr "13"; LStr "14"]
              [[0; 3.8; 7.6; 11.4; 15.2];
               [3.8; 0; 3.8; 7.6; 11.4];
               [7.6; 3.8; 0; 3.8; 7.6];
               [11.4; 7.6; 3.8; 0; 3.8];
               [15.2; 11.4; 7.6; 3.8; 0]]%Q Exception)
    as (Hsame & Hmsg & Hfound & _ & _); [reflexivity|reflexivity|reflexivity|].
  destruct (Hfound 1) as [Hfind Hres]; [reflexivity|by eexists|by eexists|].
  split_and!; [reflexivity|reflexivity|exact Hfind| |exact Hmsg|exact Hsame].
  eexists. split; [apply Hres; reflexivity|reflexivity].
Defined.

(** ** Runs that return *)

Lemma bind_Return_inv {A B} (m : M A) (f : A → M B) b :
  outcome (m ≫= f) = Return b → ∃ a, outcome m = Return a ∧ outcome (f a) = Return b.
Proof. rewrite outcome_bind. destruct (outcome m) as [a|]; [eauto|done]. Qed.

Lemma call_Return_inv {A} (r : option A) a : outcome (call r) = Return a → r = Some a.
Proof. rewrite outcome_call. destruct r; [|done]. by intros [= ->]. Qed.

Lemma try_except_Return_inv {A} (body handler : M A) a :
  outcome (try_except body handler) = Return a →
  outcome body = Return a ∨ (∃ e, outcome body = Raise e) ∧ outcome handler = Return a.
Proof. rewrite outcome_try_except. destruct (outcome body); [left|right]; eauto. Qed.

(** Splitting a run that returned into the steps that returned. *)
Ltac split_run H :=
  repeat first
    [ match type of H with
      | context [match ?x with (_, _) => _ end] => is_var x; destruct x
      end
    | match type of H with
      | outcome (_ ≫= _) = Return _ =>
          let a := fresh "a" in
          let Ha := fresh "Hstep" in
          apply bind_Return_inv in H as (a & Ha & H); cbv beta iota zeta in H
      end ].

Section Index.
Variable sca : scaTools.
Variable file_lines : string → option (list string).

Lemma resolve_index_Return o i hf sf so r :
  outcome (resolve_index sca file_lines o i hf sf so) = Return r →
  r_i_ref r = i ∧ r_dist_pdb r = None.
Proof.
  unfold resolve_index. intros H. split_run H.
  apply try_except_Return_inv in H as [H|[_ H]]; [|done].
  split_run H. rewrite outcome_ret in H. by simplify_eq.
Qed.
End Index.

Section Pipeline.
Variable fl : floats.
Variable sca : scaTools.
Variable file_lines : string → option (list string).

Lemma check_options_index o i : i_ref o = Some i → check_options o = mret o.
Proof. unfold check_options. by intros ->. Qed.

Lemma check_options_i_ref o o' :
  outcome (check_options o) = Return o' →
  i_ref o' = i_ref o ∧ refpos o' = refpos o ∧ truncate o' = truncate o
  ∧ alignment o' = alignment o.
Proof.
  unfold check_options. destruct (i_ref o) eqn:Hi.
  { rewrite outcome_ret. by intros [= <-]. }
  intros H. split_run H.
  assert (∀ (b : bool) (x y : M options) (z : options),
            outcome (if b then x else y) = Return z →
            outcome x = Return z ∨ outcome y = Return z) as Hif.
  { intros [] ????; eauto. }
  assert (∀ u v : options, outcome (print "And...ignoring the PDB file...";; mret (clear_pdbid u)) = Return v
                           ∨ outcome (mret u) = Return v →
            i_ref v = i_ref u ∧ refpos v = refpos u ∧ truncate v = truncate u
            ∧ alignment v = alignment u) as Hpdb.
  { intros u v [Hv|Hv]; revert Hv; run; intros; by simplify_eq. }
  assert (i_ref a = i_ref o ∧ refpos a = refpos o ∧ truncate a = truncate o
          ∧ alignment a = alignment o) as (?&?&?&?).
  { apply Hif in Hstep as [Hv|Hv]; revert Hv; run; intros; by simplify_eq. }
  assert (i_ref a0 = i_ref a ∧ refpos a0 = refpos a ∧ truncate a0 = truncate a
          ∧ alignment a0 = alignment a) as (?&?&?&?).
  { apply Hif in Hstep0 as [Hv|Hv].
    - revert Hv. run. intros Hv. apply Hif in Hv. by apply Hpdb.
    - rewrite outcome_ret in Hv. by simplify_eq. }
  assert (i_ref o' = i_ref a0 ∧ refpos o' = refpos a0 ∧ truncate o' = truncate a0
          ∧ alignment o' = alignment a0) as (?&?&?&?).
  { apply Hif in H as [Hv|Hv].
    - revert Hv. run. intros Hv. apply Hif in Hv. by apply Hpdb.
    - rewrite outcome_ret in Hv. by simplify_eq. }
  split_and!; congruence.
Qed.

Lemma filter_stage_Return o hf r f :
  outcome (filter_stage sca o hf r) = Return f →
  ∃ alg0 seqw0 seqkeep alg1 iposkeep headers ats,
    filterSeq sca (r_sequences r) (r_i_ref r) (max_frac_gaps_seq (parameters o))
      (min_seqid (parameters o)) (max_seqid (parameters o))
    = Some (alg0, seqw0, seqkeep)
    ∧ select hf seqkeep = Some headers
    ∧ filterPos sca alg0 seqw0 (max_frac_gaps_pos (parameters o)) = Some (alg1, iposkeep)
    ∧ select (r_ats r) iposkeep = Some ats
    ∧ f = {| f_headers := headers; f_alg0 := alg0; f_seqw0 := seqw0;
             f_seqkeep := seqkeep; f_alg1 := alg1; f_iposkeep := iposkeep;
             f_ats := ats;
             f_distmat := reslice_distmat (r_dist_pdb r) iposkeep |}.
Proof.
  unfold filter_stage. intros H. split_run H.
  rewrite outcome_ret in H. simplify_eq.
  repeat match goal with Hc : outcome (call _) = Return _ |- _ =>
    apply call_Return_inv in Hc end.
  eexists _, _, _, _, _, _, _. split_and!; done.
Qed.

Lemma main_Return o out :
  outcome (main fl sca file_lines o) = Return out →
  ∃ o' headers_raw sequences_raw sequences_ori headers_full sequences_full poskeep r f,
    outcome (check_options o) = Return o'
    ∧ readAlg sca (alignment o') = Some (headers_raw, sequences_raw)
    ∧ sanitize headers_raw sequences_raw = Some (sequences_ori, headers_full)
    ∧ filterPos sca sequences_ori [1%Q] 0.8%Q = Some (sequences_full, poskeep)
    ∧ outcome (resolve_reference sca file_lines o' headers_full sequences_full sequences_ori)
      = Return r
    ∧ outcome (filter_stage sca o' headers_full r) = Return f
    ∧ D_ats (out_db out) = f_ats f
    ∧ D_i_ref (out_db out) = r_i_ref r
    ∧ D_distmat (out_db out) = f_distmat f
    ∧ D_pdbid (out_db out) = (λ _, pdbid o') <$> f_distmat f
    ∧ D_pdb_chainID (out_db out) = (λ _, chainID o') <$> f_distmat f.
Proof.
  unfold main. intros H. split_run H.
  rewrite outcome_ret in H. simplify_eq. simpl.
  repeat match goal with Hc : outcome (call _) = Return _ |- _ =>
    apply call_Return_inv in Hc end.
  eexists _, _, _, _, _, _, _, _, _. split_and!; done.
Qed.
End Pipeline.

(** ** The remapped matrix *)

Lemma list_index_Some {A} `{EqDecision A} (x : A) (l : list A) i :
  list_index x l = Some i →
  l !! i = Some x ∧ ∀ i', (i' < i)%nat → l !! i' ≠ Some x.
Proof.
  revert i. induction l as [|y l IH]; intros i; simpl; [done|].
  case_decide as Hy.
  - intros [= <-]. subst. split; [done|]. intros; lia.
  - destruct (list_index x l) as [i0|]; simpl; [|done].
    intros [= <-]. destruct (IH i0 eq_refl) as [Hi0 Hfirst]. split; [done|].
    intros [|i'] Hlt; simpl; [congruence|]. apply Hfirst. lia.
Qed.

Lemma list_index_elem_of {A} `{EqDecision A} (x : A) (l : list A) :
  x ∈ l → ∃ i, list_index x l = Some i ∧ (i < length l)%nat.
Proof.
  induction l as [|y l IH]; [by intros ?%elem_of_nil|].
  intros Hx. simpl. case_decide as Hy.
  - exists 0%nat. split; [done|lia].
  - apply elem_of_cons in Hx as [->|Hx]; [done|].
    destruct (IH Hx) as (i & -> & Hi). exists (S i). split; [done|lia].
Qed.

Lemma mat_get_square n m j k :
  square n m → (j < n)%nat → (k < n)%nat → is_Some (mat_get m j k).
Proof.
  intros [Hlen Hrows] Hj Hk. unfold mat_get.
  destruct (lookup_lt_is_Some_2 m j) as [row Hrow]; [lia|].
  rewrite Hrow. simpl. apply lookup_lt_is_Some_2. by rewrite (Hrows _ _ Hrow).
Qed.

Lemma is_gap_true p : is_gap p = true ↔ p = gap.
Proof. unfold is_gap. by rewrite bool_decide_eq_true. Qed.

Lemma is_gap_false p : is_gap p = false ↔ p ≠ gap.
Proof. unfold is_gap. by rewrite bool_decide_eq_false. Qed.

(** C2 (amended).  In the matrix the remap builds, the row of a column [j]
    whose ATS label is the sentinel ['-'] holds the unreachable value 1000 at
    every column [k] other than [j], and 0 at [k = j]: the loop leaves the
    diagonal of [np.zeros] untouched. *)
Theorem gap_row_unreachable (ats ats_pdb : list label) (dist_pdb D : matrix)
    (j k : nat) :
  remap ats ats_pdb dist_pdb = Some D →
  ats !! j = Some gap →
  (k < length ats)%nat →
  mat_get D j k = Some (if decide (k = j) then 0%Q else unreachable).
Proof.
  intros Hrun Hj Hk.
  destruct (lookup_lt_is_Some_2 ats k Hk) as [pos2 Hpos2].
  destruct (remap_entries _ _ _ _ Hrun) as [_ Hentries].
  rewrite (Hentries j k gap pos2 Hj Hpos2). unfold remapped_entry.
  by case_decide.
Qed.

Lemma gap_row_unreachable_witness :
  mat_get [[0; 1000; 7.6]; [1000; 0; 1000]; [7.6; 1000; 0]]%Q 1 0 = Some unreachable
  ∧ mat_get [[0; 1000; 7.6]; [1000; 0; 1000]; [7.6; 1000; 0]]%Q 1 1 = Some 0%Q.
Proof.
  split.
  - apply (gap_row_unreachable [LStr "10"; gap; LStr "12"]
             [LStr "10"; LStr "11"; LStr "12"]
             [[0; 3.8; 7.6]; [3.8; 0; 3.8]; [7.6; 3.8; 0]]%Q
             [[0; 1000; 7.6]; [1000; 0; 1000]; [7.6; 1000; 0]]%Q 1 0);
      [reflexivity|reflexivity|simpl; lia].
  - apply (gap_row_unreachable [LStr "10"; gap; LStr "12"]
             [LStr "10"; LStr "11"; LStr "12"]
             [[0; 3.8; 7.6]; [3.8; 0; 3.8]; [7.6; 3.8; 0]]%Q
             [[0; 1000; 7.6]; [1000; 0; 1000]; [7.6; 1000; 0]]%Q 1 1);
      [reflexivity|reflexivity|simpl; lia].
Defined.

(** C2 as stated fails on the diagonal. *)
Lemma gap_diagonal_is_zero :
  ¬ ∀ (ats ats_pdb : list label) (dist_pdb D : matrix) (j k : nat),
      remap ats ats_pdb dist_pdb = Some D →
      ats !! j = Some gap →
      (k < length ats)%nat →
      mat_get D j k = Some unreachable.
Proof.
  intros Hclaim.
  specialize (Hclaim [LStr "10"; gap; LStr "12"]
                [LStr "10"; LStr "11"; LStr "12"]
                [[0; 3.8; 7.6]; [3.8; 0; 3.8]; [7.6; 3.8; 0]]%Q
                [[0; 1000; 7.6]; [1000; 0; 1000]; [7.6; 1000; 0]]%Q
                1%nat 1%nat eq_refl eq_refl).
  simpl in Hclaim. specialize (Hclaim ltac:(lia)). discriminate Hclaim.
Qed.

(** C6.  For two distinct columns [j] and [k] whose ATS labels are not the
    sentinel, the remapped entry [(j, k)] is the entry of the raw matrix at
    the positions of the two labels in the raw structure-position list (the
    first occurrence of each, as [index] finds it): the very same value. *)
Theorem remap_exact (ats ats_pdb : list label) (dist_pdb D : matrix)
    (j k : nat) (pos1 pos2 : label) :
  remap ats ats_pdb dist_pdb = Some D →
  j ≠ k →
  ats !! j = Some pos1 → ats !! k = Some pos2 →
  pos1 ≠ gap → pos2 ≠ gap →
  ∃ ix_j ix_k v,
    list_index pos1 ats_pdb = Some ix_j ∧ ats_pdb !! ix_j = Some pos1
    ∧ list_index pos2 ats_pdb = Some ix_k ∧ ats_pdb !! ix_k = Some pos2
    ∧ mat_get dist_pdb ix_j ix_k = Some v
    ∧ mat_get D j k = Some v.
Proof.
  intros Hrun Hjk Hj Hk Hg1 Hg2.
  destruct (remap_entries _ _ _ _ Hrun) as [Hsq Hentries].
  pose proof (Hentries j k pos1 pos2 Hj Hk) as Hcell.
  destruct (mat_get_square _ D j k Hsq) as [v Hv];
    [by eapply lookup_lt_Some|by eapply lookup_lt_Some|].
  rewrite Hv in Hcell. unfold remapped_entry in Hcell.
  rewrite decide_False in Hcell by congruence.
  apply is_gap_false in Hg1, Hg2. rewrite Hg1, Hg2 in Hcell. simpl in Hcell.
  unfold raw_distance in Hcell.
  destruct (list_index pos1 ats_pdb) as [ix_j|] eqn:H1; simpl in Hcell; [|done].
  destruct (list_index pos2 ats_pdb) as [ix_k|] eqn:H2; simpl in Hcell; [|done].
  exists ix_j, ix_k, v. split_and!; try done.
  - by apply list_index_Some in H1 as [? _].
  - by apply list_index_Some in H2 as [? _].
Qed.

Lemma remap_exact_witness :
  ∃ ix_j ix_k v,
    list_index (LStr "12") [LStr "10"; LStr "11"; LStr "12"] = Some ix_j
    ∧ [LStr "10"; LStr "11"; LStr "12"] !! ix_j = Some (LStr "12")
    ∧ list_index (LStr "10") [LStr "10"; LStr "11"; LStr "12"] = Some ix_k
    ∧ [LStr "10"; LStr "11"; LStr "12"] !! ix_k = Some (LStr "10")
    ∧ mat_get [[0; 3.8; 7.6]; [3.8; 0; 3.8]; [7.6; 3.8; 0]]%Q ix_j ix_k = Some v
    ∧ mat_get [[0; 1000; 7.6]; [1000; 0; 1000]; [7.6; 1000; 0]]%Q 2 0 = Some v.
Proof.
  apply (remap_exact [LStr "10"; gap; LStr "12"]
           [LStr "10"; LStr "11"; LStr "12"]
           [[0; 3.8; 7.6]; [3.8; 0; 3.8]; [7.6; 3.8; 0]]%Q
           [[0; 1000; 7.6]; [1000; 0; 1000]; [7.6; 1000; 0]]%Q
           2 0 (LStr "12") (LStr "10"));
    [reflexivity|lia|reflexivity|reflexivity|discriminate|discriminate].
Defined.

(** The remap goes through when every label of the ATS that is not the
    sentinel is a label of the structure, and the raw matrix covers the
    structure's labels. *)
Lemma for_enum_is_Some {A St} (body : nat → A → St → option St) (l : list A) :
  (∀ i x s, x ∈ l → is_Some (body i x s)) →
  ∀ i s, is_Some (for_enum body i l s).
Proof.
  induction l as [|x l IH]; intros Hbody i s; simpl; [by eexists|].
  destruct (Hbody i x s) as [s' ->]; [by left|]. simpl.
  apply IH. intros i' y t Hy. apply Hbody. by right.
Qed.

Lemma raw_distance_is_Some ats_pdb dist_pdb pos1 pos2 :
  square (length ats_pdb) dist_pdb → pos1 ∈ ats_pdb → pos2 ∈ ats_pdb →
  is_Some (raw_distance ats_pdb dist_pdb pos1 pos2).
Proof.
  intros Hsq (ix_j & H1 & Hj)%list_index_elem_of (ix_k & H2 & Hk)%list_index_elem_of.
  unfold raw_distance. rewrite H1, H2. simpl. by eapply mat_get_square.
Qed.

Lemma remap_succeeds ats ats_pdb dist_pdb :
  (∀ pos, pos ∈ ats → pos ≠ gap → pos ∈ ats_pdb) →
  square (length ats_pdb) dist_pdb →
  is_Some (remap ats ats_pdb dist_pdb).
Proof.
  intros Hpresent Hsq. unfold remap.
  apply for_enum_is_Some. intros j pos1 m Hpos1.
  apply for_enum_is_Some. intros k pos2 m' Hpos2.
  unfold remap_cell. case_decide; [|by eexists].
  destruct (is_gap pos1) eqn:Hg1; simpl; [by eexists|].
  destruct (is_gap pos2) eqn:Hg2; simpl; [by eexists|].
  apply is_gap_false in Hg1, Hg2.
  destruct (raw_distance_is_Some ats_pdb dist_pdb pos1 pos2) as [v Hv];
    [done|by apply Hpresent|by apply Hpresent|].
  rewrite Hv. by eexists.
Qed.

(** ** Truncation *)

Lemma py_int_floor x : (0 <= Qnum x) → py_int x = Qfloor x.
Proof.
  destruct x as [n d]. unfold py_int, Qfloor. simpl. intros Hn.
  apply Z.quot_div_nonneg; lia.
Qed.

Lemma Qnum_nonneg x : (0 <= x)%Q → 0 <= Qnum x.
Proof. unfold Qle. simpl. lia. Qed.

(** ** Drawing without replacement *)

Lemma length_draw pool n rnd : length (draw pool n rnd) = Nat.min n (length pool).
Proof.
  revert pool rnd. induction n as [|n IH]; intros pool rnd; simpl; [done|].
  destruct pool as [|x pool]; [done|].
  set (p := (hd 0%nat rnd `mod` length (x :: pool))%nat).
  assert (p < length (x :: pool))%nat as Hp.
  { apply Nat.mod_upper_bound. simpl. lia. }
  destruct (lookup_lt_is_Some_2 _ _ Hp) as [y ->]. simpl.
  rewrite IH, length_delete by (by apply lookup_lt_is_Some_2). simpl in *. lia.
Qed.

Lemma length_pool_one p a n :
  length (filter (λ s, s ∉ [p]) (seq a n))
  = (n - (if decide (a ≤ p < a + n)%nat then 1 else 0))%nat.
Proof.
  revert a. induction n as [|n IH]; intros a; simpl.
  - by case_decide.
  - rewrite filter_cons. destruct (decide (a = p)) as [->|Hne].
    + rewrite decide_False by (intros Hn; apply Hn, list_elem_of_singleton; done).
      rewrite IH. rewrite decide_False by lia. rewrite decide_True by lia. lia.
    + rewrite decide_True by (by intros ?%list_elem_of_singleton).
      simpl. rewrite IH.
      destruct (decide (S a ≤ p < S a + n)%nat), (decide (a ≤ p < a + S n)%nat); lia.
Qed.

Lemma length_pool_none n : length (filter (λ s, s ∉ @nil nat) (seq 0 n)) = n.
Proof.
  assert (∀ l : list nat, filter (λ s, s ∉ @nil nat) l = l) as ->.
  { induction l as [|x l IH]; [done|].
    rewrite filter_cons, decide_True by (by intros ?%elem_of_nil). by rewrite IH. }
  apply length_seq.
Qed.

Lemma keep_list_cases seqkeep i :
  (keep_list seqkeep i = [] ∧ list_index i (Z.of_nat <$> seqkeep) = None)
  ∨ ∃ p, keep_list seqkeep i = [p]
         ∧ list_index i (Z.of_nat <$> seqkeep) = Some p
         ∧ (p < length seqkeep)%nat.
Proof.
  unfold keep_list. destruct (list_index i (Z.of_nat <$> seqkeep)) as [p|] eqn:Hp.
  - right. exists p. split_and!; [done|done|].
    apply list_index_Some in Hp as [Hp _]. apply lookup_lt_Some in Hp.
    by rewrite length_fmap in Hp.
  - by left.
Qed.

Lemma length_randSel_spec rnd seqw0 target seqkeep i :
  length seqkeep = length seqw0 →
  0 <= target <= Z.of_nat (length seqw0) →
  Z.of_nat (length (keep_list seqkeep i)) <= target →
  Z.of_nat (length (randSel_spec rnd seqw0 target (keep_list seqkeep i))) = target.
Proof.
  intros Hlen Htarget Hkeep. unfold randSel_spec.
  rewrite length_app, length_draw.
  destruct (keep_list_cases seqkeep i) as [[Hk _]|(p & Hk & _ & Hp)];
    rewrite Hk in *.
  - rewrite length_pool_none. cbn [length] in *. lia.
  - rewrite length_pool_one. rewrite decide_True by lia. cbn [length] in *. lia.
Qed.

Lemma select_elem {A} (l : list A) K l' p :
  select l K = Some l' → p ∈ K → ∃ x, l !! p = Some x ∧ x ∈ l'.
Proof.
  unfold select. intros HF%mapM_Some [a Ha]%list_elem_of_lookup.
  destruct (Forall2_lookup_l _ _ _ _ _ HF Ha) as (x & Hx & Hl).
  exists x. split; [done|]. by eapply list_elem_of_lookup_2.
Qed.

Lemma select_length {A} (l : list A) K l' : select l K = Some l' → length l' = length K.
Proof. unfold select. by intros ?%length_mapM. Qed.

Lemma select_lookup {A} (l : list A) K l' a ka :
  select l K = Some l' → K !! a = Some ka →
  ∃ x, l' !! a = Some x ∧ l !! ka = Some x.
Proof.
  unfold select. intros HF%mapM_Some Ha.
  destruct (Forall2_lookup_l _ _ _ _ _ HF Ha) as (x & Hx & Hl). eauto.
Qed.

(** C3 (amended).  Down-selection is enabled and [randSel] behaves as the
    specification describes.  [total] is the float [seqw0.sum()] and [scaled]
    the float [1.5 * effseqsprelimit].  With one weight per retained
    sequence, enough sequences for the target and a target of at least the
    number of forced indices, the number of selected sequences (and of
    selected headers) is [int(1.5 * int(total))]: the sum is truncated before
    it is multiplied, and for non-negative numbers [int] is the floor.  When
    the reference index occurs in [seqkeep], its position there is selected,
    and the reference sequence and its header are in the selection. *)
Theorem down_selection_count (fl : floats) (sca : scaTools) (o : options) (i : Z)
    (f : filtered) (rnd : list nat) (total scaled : Q) (alg hd : list string) :
  Nselect o = true →
  np_sum fl (f_seqw0 f) = Some total →
  float_times fl 1.5%Q (py_int total) = Some scaled →
  randSel sca (f_seqw0 f) (py_int scaled) (keep_list (f_seqkeep f) i)
  = Some (randSel_spec rnd (f_seqw0 f) (py_int scaled) (keep_list (f_seqkeep f) i)) →
  length (f_seqkeep f) = length (f_seqw0 f) →
  0 <= py_int scaled <= Z.of_nat (length (f_seqw0 f)) →
  Z.of_nat (length (keep_list (f_seqkeep f) i)) <= py_int scaled →
  outcome (select_stage fl sca o i (py_int total) f) = Return (alg, hd) →
  effseqsprelimit fl (f_seqw0 f) = Some (py_int total)
  ∧ select_target fl (py_int total) = Some (py_int scaled)
  ∧ ((0 <= total)%Q → py_int total = Qfloor total)
  ∧ ((0 <= scaled)%Q → py_int scaled = Qfloor scaled)
  ∧ Z.of_nat (length alg) = py_int scaled
  ∧ length hd = length alg
  ∧ (i ∈ (Z.of_nat <$> f_seqkeep f) →
     ∃ p s h,
       list_index i (Z.of_nat <$> f_seqkeep f) = Some p
       ∧ 0 <= i ∧ f_seqkeep f !! p = Some (Z.to_nat i)
       ∧ p ∈ randSel_spec rnd (f_seqw0 f) (py_int scaled) (keep_list (f_seqkeep f) i)
       ∧ f_alg1 f !! p = Some s ∧ s ∈ alg
       ∧ f_headers f !! p = Some h ∧ h ∈ hd
       ∧ ∀ headers_full,
           select headers_full (f_seqkeep f) = Some (f_headers f) →
           headers_full !! Z.to_nat i = Some h).
Proof.
  intros Hsel Htotal Hscaled Hrand Hlen Htarget Hkeep Hrun.
  assert (Htgt : select_target fl (py_int total) = Some (py_int scaled)).
  { unfold select_target. by rewrite Hscaled. }
  unfold select_stage in Hrun. rewrite Hsel in Hrun.
  apply bind_Return_inv in Hrun as (target & Ht & Hrun).
  apply call_Return_inv in Ht. rewrite Htgt in Ht. injection Ht as <-.
  rewrite Hrand in Hrun.
  split_run Hrun. rewrite outcome_ret in Hrun.
  repeat match goal with Hc : outcome (call _) = Return _ |- _ =>
    apply call_Return_inv in Hc end.
  simplify_eq.
  match goal with Ha : select (f_alg1 f) _ = Some _ |- _ => rename Ha into Halg end.
  match goal with Hh : select (f_headers f) _ = Some _ |- _ => rename Hh into Hhd end.
  pose proof (length_randSel_spec rnd _ _ _ i Hlen Htarget Hkeep) as Hcount.
  split_and!.
  - unfold effseqsprelimit. by rewrite Htotal.
  - done.
  - intros Hpos. by apply py_int_floor, Qnum_nonneg.
  - intros Hpos. by apply py_int_floor, Qnum_nonneg.
  - by rewrite (select_length _ _ _ Halg).
  - by rewrite (select_length _ _ _ Halg), (select_length _ _ _ Hhd).
  - intros Hin. destruct (list_index_elem_of _ _ Hin) as (p & Hp & _).
    pose proof (list_index_Some _ _ _ Hp) as [Hlook _].
    rewrite list_lookup_fmap in Hlook.
    destruct (f_seqkeep f !! p) as [k|] eqn:Hk; simplify_eq/=.
    assert (p ∈ randSel_spec rnd (f_seqw0 f) (py_int scaled)
                  (keep_list (f_seqkeep f) (Z.of_nat k))) as Hsel'.
    { unfold randSel_spec, keep_list. rewrite Hp. apply elem_of_app. left.
      by apply list_elem_of_singleton. }
    destruct (select_elem _ _ _ _ Halg Hsel') as (s & Hs & Hs').
    destruct (select_elem _ _ _ _ Hhd Hsel') as (h & Hh & Hh').
    exists p, s, h. rewrite Nat2Z.id.
    split_and!; [done|lia|done|done|done|done|done|done|].
    intros headers_full Hheaders.
    destruct (select_lookup _ _ _ _ _ Hheaders Hk) as (x & Hx & Hx').
    congruence.
Qed.

Lemma down_selection_count_witness :
  let f := {| f_headers := ["h0"; "h2"; "h3"; "h5"; "h6"];
              f_alg0 := ["ACDEF"; "ACDEY"; "ACDWY"; "SCDWY"; "STDWY"];
              f_seqw0 := [0.5; 0.5; 1; 0.5; 0.5]%Q;
              f_seqkeep := [0; 2; 3; 5; 6]%nat;
              f_alg1 := ["ACDEF"; "ACDEY"; "ACDWY"; "SCDWY"; "STDWY"];
              f_iposkeep := [0; 1; 2; 3; 4]%nat;
              f_ats := LInt <$> range 5;
              f_distmat := None |} in
  let alg := ["ACDWY"; "ACDEF"; "ACDEY"; "SCDWY"] in
  let hd := ["h3"; "h0"; "h2"; "h5"] in
  outcome (select_stage Toy.exact Toy.tools
             (Toy.command_line None None None None None true false) 3 3 f)
  = Return (alg, hd)
  ∧ effseqsprelimit Toy.exact (f_seqw0 f) = Some 3
  ∧ select_target Toy.exact 3 = Some 4
  ∧ Z.of_nat (length alg) = 4
  ∧ length hd = length alg
  ∧ ∃ p s h,
      list_index 3 (Z.of_nat <$> f_seqkeep f) = Some p
      ∧ 0 <= 3 ∧ f_seqkeep f !! p = Some 3%nat
      ∧ p ∈ randSel_spec [] (f_seqw0 f) 4 (keep_list (f_seqkeep f) 3)
      ∧ f_alg1 f !! p = Some s ∧ s ∈ alg
      ∧ f_headers f !! p = Some h ∧ h ∈ hd
      ∧ ∀ headers_full,
          select headers_full (f_seqkeep f) = Some (f_headers f) →
          headers_full !! 3%nat = Some h.
Proof.
  intros f alg hd.
  destruct (down_selection_count Toy.exact Toy.tools
              (Toy.command_line None None None None None true false) 3
              f [] (Qsum (f_seqw0 f)) (1.5 * inject_Z 3)%Q alg hd)
    as (Heff & Htgt & _ & _ & Hcount & Hhd & Href).
  - reflexivity.
  - reflexivity.
  - reflexivity.
  - reflexivity.
  - reflexivity.
  - by vm_compute.
  - by vm_compute.
  - reflexivity.
  - split_and!; [reflexivity|exact Heff|exact Htgt|exact Hcount|exact Hhd|].
    apply Href. apply list_elem_of_lookup. by exists 2%nat.
Defined.

(** C3 as stated fails.  When the weights do not add up to a whole number
    the count is not [floor(1.5 * sum)]: the weights 0.25, 0.5, 0.5, 0.5 add
    up to 1.75 (no rounding in float64), the claim gives 2 sequences and the
    script asks for 1.  And a reference sequence that survived need not be
    selected: with the reference index -1 the reference is the last
    sequence, it is retained, and it is not among the three selected. *)
Lemma down_selection_truncates_twice :
  (let seqw0 := [0.25; 0.5; 0.5; 0.5]%Q in
   let seqkeep := [0; 1; 2; 3]%nat in
   (∃ total, np_sum Toy.exact seqw0 = Some total ∧ (total == 1.75)%Q
             ∧ Qfloor (1.5 * total) = 2)
   ∧ effseqsprelimit Toy.exact seqw0 = Some 1
   ∧ select_target Toy.exact 1 = Some 1
   ∧ length (randSel_spec [] seqw0 1 (keep_list seqkeep 0)) = 1%nat)
  ∧ (let f := {| f_headers := ["h0"; "h1"; "h2"; "h3"];
                 f_alg0 := ["ACDEF"; "ACDEY"; "ACDWY"; "SCDWY"];
                 f_seqw0 := [0.5; 0.5; 0.5; 0.5]%Q;
                 f_seqkeep := [0; 1; 2; 3]%nat;
                 f_alg1 := ["ACDEF"; "ACDEY"; "ACDWY"; "SCDWY"];
                 f_iposkeep := [0; 1; 2; 3; 4]%nat;
                 f_ats := LInt <$> range 5;
                 f_distmat := None |} in
     let o := Toy.command_line None None None None (Some (-1)) true false in
     py_index (f_alg0 f) (-1) = Some "SCDWY"
     ∧ py_index (f_alg0 f) (-1) = f_alg0 f !! 3%nat
     ∧ 3%nat ∈ f_seqkeep f
     ∧ effseqsprelimit Toy.exact (f_seqw0 f) = Some 2
     ∧ outcome (select_stage Toy.exact Toy.tools o (-1) 2 f)
       = Return (["ACDEF"; "ACDEY"; "ACDWY"], ["h0"; "h1"; "h2"])
     ∧ "SCDWY" ∉ ["ACDEF"; "ACDEY"; "ACDWY"]).
Proof.
  split.
  - split_and!; [|reflexivity|reflexivity|reflexivity].
    eexists. split_and!; [reflexivity|reflexivity|reflexivity].
  - split_and!; [reflexivity|reflexivity| |reflexivity|reflexivity|].
    + apply list_elem_of_lookup. by exists 3%nat.
    + intros Hin. repeat (apply elem_of_cons in Hin as [Hin|Hin]; [done|]).
      by apply elem_of_nil in Hin.
Qed.

(** ** Index selections *)

Lemma ix_select_Some D K D' :
  ix_select D K = Some D' →
  length D' = length K
  ∧ ∀ a b ka kb, K !! a = Some ka → K !! b = Some kb →
      ∃ v, mat_get D' a b = Some v ∧ mat_get D ka kb = Some v.
Proof.
  unfold ix_select. intros HF. pose proof (length_mapM _ _ _ HF) as Hlen.
  apply mapM_Some in HF. split; [done|].
  intros a b ka kb Ha Hb.
  destruct (Forall2_lookup_l _ _ _ _ _ HF Ha) as (row' & Hrow' & Hsel).
  destruct (D !! ka) as [row|] eqn:Hrow; simpl in Hsel; [|done].
  apply mapM_Some in Hsel.
  destruct (Forall2_lookup_l _ _ _ _ _ Hsel Hb) as (v & Hv' & Hv).
  exists v. unfold mat_get. rewrite Hrow', Hrow. done.
Qed.

Lemma ix_select_total n D K :
  square n D → Forall (λ k, (k < n)%nat) K → is_Some (ix_select D K).
Proof.
  intros [Hlen Hrows] HK. unfold ix_select.
  assert (∀ (B : Type) (g : nat → option B) (L : list nat),
            Forall (λ k, is_Some (g k)) L → is_Some (mapM g L)) as Htotal.
  { intros B g L. induction 1 as [|k L [y Hy] _ [ys IH]]; [by eexists|].
    simpl. rewrite Hy. simpl. rewrite IH. by eexists. }
  apply Htotal. eapply Forall_impl; [exact HK|]. intros a Ha. simpl in Ha.
  destruct (lookup_lt_is_Some_2 D a) as [row Hrow]; [lia|].
  rewrite Hrow. simpl. apply Htotal.
  eapply Forall_impl; [exact HK|]. intros b Hb. simpl in Hb.
  apply lookup_lt_is_Some_2. by rewrite (Hrows _ _ Hrow).
Qed.

Lemma select_bounds {A} (l : list A) K l' :
  select l K = Some l' → Forall (λ k, (k < length l)%nat) K.
Proof.
  unfold select. intros HF%mapM_Some. apply Forall_forall. intros k Hk.
  apply list_elem_of_lookup in Hk as [a Ha].
  destruct (Forall2_lookup_l _ _ _ _ _ HF Ha) as (x & _ & Hx).
  by eapply lookup_lt_Some.
Qed.

(** ** Strings as columns *)

Lemma string_get_is_Some s i : (i < String.length s)%nat → is_Some (String.get i s).
Proof.
  revert i. induction s as [|c s IH]; intros i Hi; simpl in *; [lia|].
  destruct i; [by eexists|]. apply IH. lia.
Qed.

Lemma length_of_list_ascii l : String.length (string_of_list_ascii l) = length l.
Proof. induction l as [|c l IH]; simpl; [done|]. by rewrite IH. Qed.

Lemma length_omap_total {A B} (g : A → option B) l :
  Forall (λ x, is_Some (g x)) l → length (omap g l) = length l.
Proof.
  induction 1 as [|x l [y Hy] _ IH]; [done|]. simpl. rewrite Hy. simpl. f_equal. exact IH.
Qed.

Lemma length_restrict K s :
  Forall (λ i, (i < String.length s)%nat) K → String.length (restrict K s) = length K.
Proof.
  intros HK. unfold restrict. rewrite length_of_list_ascii.
  apply length_omap_total. eapply Forall_impl; [exact HK|].
  intros i Hi. by apply string_get_is_Some.
Qed.

Lemma filterPos_spec_columns alg w m :
  Forall (λ s, String.length s = ncols alg) alg →
  Forall (λ s, String.length s = length (filterPos_spec alg w m).2)
         (filterPos_spec alg w m).1.
Proof.
  intros Hrect. unfold filterPos_spec. simpl.
  set (K := filter _ (seq 0 (ncols alg))).
  assert (Forall (λ i, (i < ncols alg)%nat) K) as HK.
  { apply Forall_forall. intros i [_ Hi]%list_elem_of_filter.
    apply elem_of_seq in Hi. lia. }
  apply Forall_fmap. eapply Forall_impl; [exact Hrect|].
  intros s Hs. simpl. apply length_restrict. by rewrite Hs.
Qed.

(** ** What reference resolution leaves behind *)

Section Resolved.
Variable sca : scaTools.
Variable file_lines : string → option (list string).

Lemma resolve_pdb_dist o pdb hf sf r :
  outcome (resolve_pdb sca o pdb hf sf) = Return r →
  ∃ D, r_dist_pdb r = Some D ∧ square (length (r_ats r)) D.
Proof.
  unfold resolve_pdb. intros H.
  apply try_except_Return_inv in H as [H|[_ H]]; [|done].
  split_run H. rewrite outcome_ret in H. simplify_eq. simpl.
  match goal with Hc : outcome (call (remap _ _ _)) = Return _ |- _ =>
    apply call_Return_inv in Hc; apply remap_entries in Hc as [Hsq _] end.
  eauto.
Qed.

Lemma resolve_refseq_dist o rs hf sf r :
  outcome (resolve_refseq sca file_lines o rs hf sf) = Return r →
  r_dist_pdb r = None.
Proof.
  unfold resolve_refseq. intros H. split_run H.
  apply try_except_Return_inv in H as [H|[_ H]]; [|done].
  split_run H. rewrite outcome_ret in H. by simplify_eq.
Qed.

Lemma resolve_auto_dist hf sf r :
  outcome (resolve_auto sca hf sf) = Return r → r_dist_pdb r = None.
Proof.
  unfold resolve_auto. intros H. split_run H.
  rewrite outcome_ret in H. by simplify_eq.
Qed.

Lemma resolve_reference_dist o hf sf so r D :
  outcome (resolve_reference sca file_lines o hf sf so) = Return r →
  r_dist_pdb r = Some D → square (length (r_ats r)) D.
Proof.
  unfold resolve_reference. intros H HD.
  destruct (i_ref o) as [i|].
  { apply resolve_index_Return in H as [_ H]. congruence. }
  destruct (pdbid o) as [pdb|].
  { apply resolve_pdb_dist in H as (D' & HD' & Hsq). congruence. }
  destruct (refseq o) as [rs|].
  - apply resolve_refseq_dist in H. congruence.
  - apply resolve_auto_dist in H. congruence.
Qed.
End Resolved.

(** C5.  After position filtering with the list [K] of kept column
    indices, the new ATS is the old ATS restricted to [K]: it has one label
    per kept column, the label at [a] being the old label at [K[a]].  When
    [filterPos] behaves as the specification describes, on an alignment whose
    sequences all have the same length, every sequence of the filtered
    alignment has as many columns as the new ATS has labels.  When reference
    resolution has left a distance matrix [D], the new matrix exists and is
    [D[K, K]]: its entry [(a, b)] is the entry [(K[a], K[b])] of [D]; without
    one, there is none afterwards. *)
Theorem position_filter_reslices (sca : scaTools)
    (file_lines : string → option (list string)) (o : options)
    (headers_full sequences_full sequences_ori : list string)
    (r : resolved) (f : filtered) :
  outcome (resolve_reference sca file_lines o headers_full sequences_full sequences_ori)
  = Return r →
  outcome (filter_stage sca o headers_full r) = Return f →
  select (r_ats r) (f_iposkeep f) = Some (f_ats f)
  ∧ length (f_ats f) = length (f_iposkeep f)
  ∧ (∀ a ka, f_iposkeep f !! a = Some ka →
             ∃ x, f_ats f !! a = Some x ∧ r_ats r !! ka = Some x)
  ∧ (filterPos sca (f_alg0 f) (f_seqw0 f) (max_frac_gaps_pos (parameters o))
     = Some (filterPos_spec (f_alg0 f) (f_seqw0 f) (max_frac_gaps_pos (parameters o))) →
     Forall (λ s, String.length s = ncols (f_alg0 f)) (f_alg0 f) →
     Forall (λ s, String.length s = length (f_ats f)) (f_alg1 f))
  ∧ match r_dist_pdb r with
    | Some D =>
        ∃ D', f_distmat f = Some D'
              ∧ ix_select D (f_iposkeep f) = Some D'
              ∧ length D' = length (f_iposkeep f)
              ∧ ∀ a b ka kb,
                  f_iposkeep f !! a = Some ka → f_iposkeep f !! b = Some kb →
                  ∃ v, mat_get D' a b = Some v ∧ mat_get D ka kb = Some v
    | None => f_distmat f = None
    end.
Proof.
  intros Hr Hf.
  apply filter_stage_Return in Hf
    as (alg0 & seqw0 & seqkeep & alg1 & K & headers & ats & _ & _ & Hpos & Hats & ->).
  simpl. pose proof (select_length _ _ _ Hats) as Hlen.
  split_and!; [done|done| | |].
  - intros a ka Ha. by eapply select_lookup.
  - intros Hmodel Hrect. rewrite Hmodel in Hpos. injection Hpos as <- <-.
    rewrite Hlen. by apply filterPos_spec_columns.
  - destruct (r_dist_pdb r) as [D|] eqn:HD; [|done].
    pose proof (resolve_reference_dist _ _ _ _ _ _ _ _ Hr HD) as Hsq.
    destruct (ix_select_total _ D K Hsq (select_bounds _ _ _ Hats)) as [D' HD'].
    exists D'. simpl. destruct (ix_select_Some _ _ _ HD') as [HlenD Hent].
    split_and!; done.
Qed.

Lemma position_filter_reslices_witness :
  let o := Toy.with_parameters Toy.strict
             (Toy.command_line (Some "1ABC") None None None None false false) in
  let hd := ["s1|Homo sapiens"; "s2|Mus musculus"; "s3|Homo sapiens"] in
  let seqs := ["A-DEF"; "ACDEF"; "A-DE-"] in
  ∃ r f,
    outcome (resolve_reference Toy.tools Toy.no_file o hd seqs seqs) = Return r
    ∧ outcome (filter_stage Toy.tools o hd r) = Return f
    ∧ f_iposkeep f = [0; 2; 3; 4]%nat
    ∧ f_ats f = [LStr "10"; LStr "12"; LStr "13"; LStr "14"]
    ∧ f_alg1 f = ["ADEF"; "ADEF"; "ADE-"]
    ∧ Forall (λ s, String.length s = length (f_ats f)) (f_alg1 f)
    ∧ ∃ D', f_distmat f = Some D'
            ∧ ∀ a b ka kb,
                f_iposkeep f !! a = Some ka → f_iposkeep f !! b = Some kb →
                ∃ v, mat_get D' a b = Some v
                     ∧ mat_get [[0; 3.8; 7.6; 11.4; 15.2];
                                [3.8; 0; 3.8; 7.6; 11.4];
                                [7.6; 3.8; 0; 3.8; 7.6];
                                [11.4; 7.6; 3.8; 0; 3.8];
                                [15.2; 11.4; 7.6; 3.8; 0]]%Q ka kb = Some v.
Proof.
  intros o hd seqs.
  eexists _, _. split; [by vm_compute|]. split; [by vm_compute|].
  split; [reflexivity|]. split; [reflexivity|]. split; [reflexivity|].
  match goal with
  | |- context [f_ats ?f] =>
      destruct (position_filter_reslices Toy.tools Toy.no_file o hd seqs seqs _ f
                  ltac:(by vm_compute) ltac:(by vm_compute))
        as (_ & _ & _ & Hcols & Hdist)
  end.
  split.
  - apply Hcols; [by vm_compute|].
    repeat (constructor; [reflexivity|]). constructor.
  - simpl in Hdist. destruct Hdist as (D' & HD' & _ & _ & Hent). by exists D'.
Defined.

(** ** The default numbering and the removal of non-standard sequences *)

(** C1 (the code departs from its own documentation, which announces the
    numbering 1..N).  On an alignment of three sequences over five columns
    whose second sequence has no gap, without truncation: the default
    position list is 0, 1, 2, 3, 4; with no reference hint at all the ATS is
    that list; with a reference-sequence file and no position file the ATS
    that [makeATS] builds from it is that list again.  It is not
    1, 2, 3, 4, 5. *)
Theorem default_numbering_starts_at_zero :
  let hd := ["s1|Homo sapiens"; "s2|Mus musculus"; "s3|Homo sapiens"] in
  let seqs := ["A-DEF"; "ACDEF"; "A-DE-"] in
  let numbered_from_0 := [LInt 0; LInt 1; LInt 2; LInt 3; LInt 4] in
  outcome (default_positions seqs) = Return numbered_from_0
  ∧ outcome (resolve_reference Toy.tools Toy.no_file
               (Toy.command_line None None None None None false false) hd seqs seqs)
    = Return {| r_i_ref := 1; r_sequences := seqs; r_ats := numbered_from_0;
                r_dist_pdb := None |}
  ∧ outcome (resolve_reference Toy.tools Toy.no_file
               (Toy.command_line None None (Some "Inputs/ref.fasta") None None false false)
               hd seqs seqs)
    = Return {| r_i_ref := 1; r_sequences := seqs; r_ats := numbered_from_0;
                r_dist_pdb := None |}
  ∧ numbered_from_0 ≠ [LInt 1; LInt 2; LInt 3; LInt 4; LInt 5].
Proof. split_and!; [by vm_compute..|done]. Qed.

(** ** Sanitizing *)

Lemma char_in_spec aa s : char_in aa s = true ↔ aa ∈ list_ascii_of_string s.
Proof.
  induction s as [|c s IH]; simpl.
  - split; [done|]. by intros ?%elem_of_nil.
  - rewrite elem_of_cons. destruct (Ascii.eqb_spec aa c) as [->|Hne].
    + split; [by left|done].
    + rewrite IH. split; [by right|]. by intros [?|?].
Qed.

Lemma nonstandard_flag_spec k : nonstandard_flag k = false ↔ standard_sequence k.
Proof.
  unfold standard_sequence. induction k as [|aa k IH].
  - split; [|done]. by intros _ ? ?%elem_of_nil.
  - change (nonstandard_flag (String aa k))
      with (if negb (char_in aa standard_letters) then true else nonstandard_flag k).
    change (list_ascii_of_string (String aa k)) with (aa :: list_ascii_of_string k).
    destruct (char_in aa standard_letters) eqn:Hin; cbn [negb].
    + rewrite IH. split.
      * intros Hk c [->|Hc]%elem_of_cons; [by apply char_in_spec|by apply Hk].
      * intros Hk c Hc. apply Hk, elem_of_cons. by right.
    + split; [done|]. intros Hk.
      assert (char_in aa standard_letters = true) as Habs; [|congruence].
      apply char_in_spec, Hk, elem_of_cons. by left.
Qed.

Lemma sanitize_loop headers_full l :
  ∀ i alg_out hd_out alg hd,
    for_enum (sanitize_body headers_full) i l (alg_out, hd_out) = Some (alg, hd) →
    ∃ ka kh,
      alg = alg_out ++ ka ∧ hd = hd_out ++ kh
      ∧ ka = filter (λ k, nonstandard_flag k = false) l
      ∧ zip kh ka
        = filter (λ hk : string * string, nonstandard_flag hk.2 = false)
                 (zip (drop i headers_full) l)
      ∧ length kh = length ka.
Proof.
  induction l as [|k l IH]; intros i alg_out hd_out alg hd Hrun; simpl in Hrun.
  - simplify_eq. exists [], []. rewrite !app_nil_r. split_and!; try done.
    by destruct (drop i headers_full).
  - unfold sanitize_body in Hrun at 1.
    destruct (nonstandard_flag k) eqn:Hflag; simpl in Hrun.
    + apply IH in Hrun as (ka & kh & -> & -> & Hka & Hzip & Hlen).
      exists ka, kh. split_and!; [done|done| | |done].
      * rewrite filter_cons, decide_False by congruence. done.
      * rewrite Hzip. destruct (drop i headers_full) as [|h rest] eqn:Hdrop.
        { assert (drop (S i) headers_full = []) as ->; [|done].
          apply drop_ge. apply (f_equal length) in Hdrop.
          rewrite length_drop in Hdrop. simpl in Hdrop. lia. }
        assert (drop (S i) headers_full = rest) as ->.
        { replace (S i) with (i + 1)%nat by lia. by rewrite <-drop_drop, Hdrop. }
        simpl. rewrite filter_cons, decide_False by (simpl; congruence). done.
    + destruct (headers_full !! i) as [h|] eqn:Hh; simpl in Hrun; [|done].
      apply IH in Hrun as (ka & kh & -> & -> & Hka & Hzip & Hlen).
      exists (k :: ka), (h :: kh). rewrite <-!app_assoc. simpl.
      split_and!; [done|done| | |lia].
      * rewrite filter_cons, decide_True by done. by rewrite Hka.
      * rewrite (drop_S _ _ _ Hh). simpl.
        rewrite filter_cons, decide_True by done. by rewrite Hzip.
Qed.

Lemma sanitize_total headers_full l :
  ∀ i st, (i + length l ≤ length headers_full)%nat →
          is_Some (for_enum (sanitize_body headers_full) i l st).
Proof.
  induction l as [|k l IH]; intros i [alg_out hd_out] Hlen; simpl in *; [by eexists|].
  destruct (nonstandard_flag k); simpl.
  - apply IH. lia.
  - destruct (lookup_lt_is_Some_2 headers_full i) as [h ->]; [lia|]. simpl.
    apply IH. lia.
Qed.

Lemma sanitize_unfold headers_full sequences_full :
  sanitize headers_full sequences_full
  = for_enum (sanitize_body headers_full) 0%nat sequences_full ([], []).
Proof. reflexivity. Qed.

Lemma py_index_elem_of {A} (l : list A) i x : py_index l i = Some x → x ∈ l.
Proof.
  unfold py_index. repeat case_decide; try done; intros Hl; by eapply list_elem_of_lookup_2.
Qed.

Lemma resolve_index_lookups sca file_lines o i hf sf so r :
  outcome (resolve_index sca file_lines o i hf sf so) = Return r →
  ∃ h s, py_index hf i = Some h ∧ py_index so i = Some s.
Proof.
  unfold resolve_index. intros H. split_run H.
  repeat match goal with Hc : outcome (call _) = Return _ |- _ =>
    apply call_Return_inv in Hc end.
  eauto.
Qed.

(** C10.  The alignment read from the file is sanitized before anything
    else: the loop goes through whenever there are at least as many headers
    as sequences; it keeps, in order, exactly the sequences all of whose
    characters are among ['ACDEFGHIKLMNPQRSTVWY-'], each with its own header,
    so that every kept sequence is over the 20 amino-acid letters and the
    gap.  In a run that reaches the end, trimming and reference resolution
    work on the sanitized headers and sequences, and a reference index given
    by the user denotes a header and a sequence of the sanitized
    alignment. *)
Theorem sanitize_keeps_standard_sequences (fl : floats) (sca : scaTools)
    (file_lines : string → option (list string)) (o : options)
    (headers_raw sequences_raw : list string) :
  readAlg sca (alignment o) = Some (headers_raw, sequences_raw) →
  ((length sequences_raw ≤ length headers_raw)%nat →
   is_Some (sanitize headers_raw sequences_raw))
  ∧ (∀ alg hd,
        sanitize headers_raw sequences_raw = Some (alg, hd) →
        alg = filter (λ k, nonstandard_flag k = false) sequences_raw
        ∧ zip hd alg
          = filter (λ hk : string * string, nonstandard_flag hk.2 = false)
                   (zip headers_raw sequences_raw)
        ∧ length hd = length alg
        ∧ Forall standard_sequence alg
        ∧ (∀ k, k ∈ sequences_raw → standard_sequence k → k ∈ alg))
  ∧ (∀ out,
        outcome (main fl sca file_lines o) = Return out →
        ∃ o' alg hd poskeep sequences_full r,
          outcome (check_options o) = Return o'
          ∧ sanitize headers_raw sequences_raw = Some (alg, hd)
          ∧ filterPos sca alg [1%Q] 0.8%Q = Some (sequences_full, poskeep)
          ∧ outcome (resolve_reference sca file_lines o' hd sequences_full alg)
            = Return r
          ∧ D_i_ref (out_db out) = r_i_ref r
          ∧ ∀ i, i_ref o = Some i →
                 ∃ h s, py_index hd i = Some h ∧ py_index alg i = Some s
                        ∧ standard_sequence s).
Proof.
  intros Hread.
  assert (Hloop : ∀ alg hd,
    sanitize headers_raw sequences_raw = Some (alg, hd) →
    alg = filter (λ k, nonstandard_flag k = false) sequences_raw
    ∧ zip hd alg
      = filter (λ hk : string * string, nonstandard_flag hk.2 = false)
               (zip headers_raw sequences_raw)
    ∧ length hd = length alg
    ∧ Forall standard_sequence alg
    ∧ (∀ k, k ∈ sequences_raw → standard_sequence k → k ∈ alg)).
  { intros alg hd Hs. rewrite sanitize_unfold in Hs.
    apply sanitize_loop in Hs as (ka & kh & -> & -> & Hka & Hzip & Hlen).
    simpl. rewrite drop_0 in Hzip. split_and!; [done|done|done| |].
    - rewrite Hka. apply Forall_forall. intros k [Hk _]%list_elem_of_filter.
      by apply nonstandard_flag_spec.
    - intros k Hk Hstd. rewrite Hka. apply list_elem_of_filter. split; [|done].
      by apply nonstandard_flag_spec. }
  split_and!; [|exact Hloop|].
  - intros Hlen. rewrite sanitize_unfold. by apply sanitize_total.
  - intros out Hout.
    apply main_Return in Hout
      as (o' & hr & sr & so & hf & sf & pk & r & f & Ho & Hread' & Hsan & Hpos & Hr
          & _ & _ & Hiref & _).
    destruct (check_options_i_ref _ _ Ho) as (Hi & _ & _ & Hal).
    rewrite Hal, Hread in Hread'. simplify_eq.
    exists o', so, hf, pk, sf, r. split_and!; [done|done|done|done|done|].
    intros i Hi'. unfold resolve_reference in Hr. rewrite Hi, Hi' in Hr.
    apply resolve_index_lookups in Hr as (h & s & Hh & Hs).
    exists h, s. split_and!; [done|done|].
    destruct (Hloop _ _ Hsan) as (_ & _ & _ & Hall & _).
    rewrite Forall_forall in Hall. by eapply Hall, py_index_elem_of.
Qed.

Lemma sanitize_keeps_standard_sequences_witness :
  let raw_hd := ["s1"; "s2"; "s3"; "s4"] in
  let raw := ["A-DEF"; "ABCDE"; "ACDEF"; "ACXEF"] in
  sanitize raw_hd raw = Some (["A-DEF"; "ACDEF"], ["s1"; "s3"])
  ∧ Forall standard_sequence ["A-DEF"; "ACDEF"].
Proof.
  pose (files := λ path : string,
          if bool_decide (path = "Inputs/aln.fasta")
          then Some (["s1"; "s2"; "s3"; "s4"], ["A-DEF"; "ABCDE"; "ACDEF"; "ACXEF"])
          else None).
  destruct (sanitize_keeps_standard_sequences Toy.exact
              (Toy.sca files Toy.no_structure []) Toy.no_file
              (Toy.command_line None None None None None false false)
              ["s1"; "s2"; "s3"; "s4"] ["A-DEF"; "ABCDE"; "ACDEF"; "ACXEF"]
              eq_refl) as (_ & Hkeep & _).
  split; [reflexivity|].
  by destruct (Hkeep ["A-DEF"; "ACDEF"] ["s1"; "s3"] eq_refl) as (_ & _ & _ & H & _).
Defined.

(** ** The two-pointer merge *)

Section MergeFacts.
Context {F : Type}.
Implicit Types (freq_data : list (freq_entry F)) (dssp_data : list dssp_entry).

Lemma merge_loop_snoc dssp_data freq_data e st :
  merge_loop dssp_data (freq_data ++ [e]) st
  = merge_step dssp_data (merge_loop dssp_data freq_data st) e.
Proof. unfold merge_loop. by rewrite fold_left_app. Qed.

Lemma non_X_snoc freq_data (e : freq_entry F) :
  non_X (freq_data ++ [e])
  = (non_X freq_data + (if decide (e.1.1 = "X") then 0 else 1))%nat.
Proof.
  unfold non_X. rewrite filter_app, length_app. f_equal.
  rewrite filter_cons, filter_nil.
  destruct (decide (e.1.1 = "X")) as [HX|HX].
  - by rewrite decide_False by (intros H; by apply H).
  - by rewrite decide_True.
Qed.

Lemma merge_loop_spec dssp_data freq_data :
  let st := merge_loop dssp_data freq_data
              {| merged := []; j := 0%nat; pos_counter := 1 |} in
  length (merged st) = length freq_data
  ∧ j st = Nat.min (non_X freq_data) (length dssp_data)
  ∧ pos_counter st = Z.of_nat (length freq_data) + 1
  ∧ ∀ i e, freq_data !! i = Some e →
      merged st !! i = Some (merged_at dssp_data i (non_X (take i freq_data)) e).
Proof.
  induction freq_data as [|e freq_data IH] using rev_ind.
  - simpl. split_and!; [done| |done|done]. unfold non_X. simpl. lia.
  - rewrite merge_loop_snoc.
    set (st := merge_loop dssp_data freq_data _) in *.
    destruct IH as (Hlen & Hj & Hpc & Hentries). clearbody st.
    assert (Hold : ∀ x i e0, (freq_data ++ [e]) !! i = Some e0 →
              (i < length freq_data)%nat →
              (merged st ++ [x]) !! i
              = Some (merged_at dssp_data i (non_X (take i (freq_data ++ [e]))) e0)).
    { intros x i e0 Hi Hlt. rewrite lookup_app_l in Hi by done.
      rewrite lookup_app_l by lia. rewrite take_app_le by lia. by apply Hentries. }
    assert (Hnew : ∀ x, x = merged_at dssp_data (length freq_data) (non_X freq_data) e →
              ∀ i e0, (freq_data ++ [e]) !! i = Some e0 →
              (merged st ++ [x]) !! i
              = Some (merged_at dssp_data i (non_X (take i (freq_data ++ [e]))) e0)).
    { intros x -> i e0 Hi.
      destruct (decide (i < length freq_data)%nat) as [Hlt|Hge]; [by apply Hold|].
      assert (i = length freq_data) as ->.
      { apply lookup_lt_Some in Hi. rewrite length_app in Hi. simpl in Hi. lia. }
      rewrite list_lookup_middle in Hi by done. simplify_eq.
      rewrite list_lookup_middle by done.
      by rewrite take_app_length. }
    rewrite non_X_snoc, !length_app. simpl length.
    destruct e as [[r h] v]. unfold merge_step. simpl.
    destruct (decide (r = "X")) as [->|HX]; simpl.
    + split_and!; [rewrite length_app; simpl; lia|by rewrite Nat.add_0_r|lia|].
      apply Hnew. unfold merged_at. f_equal. by rewrite Hpc.
    + destruct (dssp_data !! j st) as [[[p dref] ss]|] eqn:Hd; simpl.
      * pose proof (lookup_lt_Some _ _ _ Hd) as Hjlt.
        split_and!; [rewrite length_app; simpl; lia|lia|lia|].
        apply Hnew. unfold merged_at. rewrite decide_False by done.
        replace (non_X freq_data) with (j st) by lia. rewrite Hd. by rewrite Hpc.
      * pose proof (proj1 (lookup_ge_None _ _) Hd) as Hjge.
        split_and!; [rewrite length_app; simpl; lia|lia|lia|].
        apply Hnew. unfold merged_at. rewrite decide_False by done.
        rewrite (proj2 (lookup_ge_None dssp_data (non_X freq_data))) by lia.
        by rewrite Hpc.
Qed.

(** C9. [merge_data] returns one tuple per entry of [freq_data]; the tuple
    at index [i] carries the position counter [i + 1]; an entry whose
    reference amino acid is ['X'] gives ['X'] and ['NA'] and uses no DSSP
    line; an entry that is not ['X'], [n] such entries before it, takes
    its reference amino acid and its secondary structure from
    [dssp_data[n]] when there is such a line (and keeps its own reference
    amino acid, with ['NA'], when the DSSP lines have run out). *)
Theorem merge_data_two_pointer freq_data dssp_data :
  length (merge_data freq_data dssp_data) = length freq_data
  ∧ ∀ i ref_aa highest_freq_aa freq_val,
      freq_data !! i = Some (ref_aa, highest_freq_aa, freq_val) →
      ∃ ref_final ss,
        merge_data freq_data dssp_data !! i
        = Some (Z.of_nat i + 1, ref_final, highest_freq_aa, freq_val, ss)
        ∧ (ref_aa = "X" → ref_final = "X" ∧ ss = "NA")
        ∧ (ref_aa ≠ "X" →
           ∀ pos dssp_ref dssp_ss,
             dssp_data !! non_X (take i freq_data) = Some (pos, dssp_ref, dssp_ss) →
             ref_final = dssp_ref ∧ ss = dssp_ss)
        ∧ (ref_aa ≠ "X" →
           dssp_data !! non_X (take i freq_data) = None →
           ref_final = ref_aa ∧ ss = "NA").
Proof.
  unfold merge_data.
  destruct (merge_loop_spec dssp_data freq_data) as (Hlen & _ & _ & Hentries).
  split; [done|].
  intros i r h v Hi. rewrite (Hentries _ _ Hi). unfold merged_at.
  destruct (decide (r = "X")) as [->|HX].
  - eexists _, _. split_and!; [done|done|done|done].
  - destruct (dssp_data !! non_X (take i freq_data)) as [[[p dref] ss]|] eqn:Hd.
    + eexists _, _. split_and!; [done|done| |done].
      intros _ ??? [= -> -> ->]. done.
    + eexists _, _. split_and!; [done|done|done|done].
Qed.
End MergeFacts.

Lemma merge_data_two_pointer_witness :
  merge_data [("M", "M", 90%Z); ("X", "-", 0%Z); ("K", "R", 70%Z); ("L", "L", 55%Z)]
             [(12, "M", "H"); (13, "K", "C")]
  = [(1, "M", "M", 90, "H"); (2, "X", "-", 0, "NA"); (3, "K", "R", 70, "C");
     (4, "L", "L", 55, "NA")]
  ∧ ∃ ref_final ss,
      merge_data [("M", "M", 90%Z); ("X", "-", 0%Z); ("K", "R", 70%Z); ("L", "L", 55%Z)]
                 [(12, "M", "H"); (13, "K", "C")] !! 2%nat
      = Some (3, ref_final, "R", 70, ss)
      ∧ ref_final = "K" ∧ ss = "C".
Proof.
  split; [reflexivity|].
  destruct (merge_data_two_pointer
              [("M", "M", 90%Z); ("X", "-", 0%Z); ("K", "R", 70%Z); ("L", "L", 55%Z)]
              [(12, "M", "H"); (13, "K", "C")]) as [_ Hentry].
  destruct (Hentry 2%nat "K" "R" 70 eq_refl) as (ref_final & ss & Hlook & _ & Hdssp & _).
  exists ref_final, ss. split; [exact Hlook|].
  apply (Hdssp ltac:(discriminate) 13 "K" "C" eq_refl).
Defined.

(** ** An explicit reference index *)

(** C8.  With an explicit reference index [i], reference resolution is the
    same whatever PDB identifier, reference-sequence file, species or chain
    is also given, and whatever the structure lookup and the searches of
    [scaTools] would answer: only [makeATS] and the position file matter.
    When the headers and the sequences have an entry [i], the position list
    is available and [makeATS] returns, resolution returns [i] and binds no
    distance matrix; the index of every run that resolves is [i], and every
    run that reaches the end stores [i] under ['i_ref'] and stores no
    ['distmat'], ['pdbid'] or ['pdb_chainID']. *)
Theorem explicit_index_wins (fl : floats) (sca : scaTools)
    (file_lines : string → option (list string)) (o : options) (i : Z) :
  i_ref o = Some i →
  (∀ sca' o' headers_full sequences_full sequences_ori,
      makeATS sca' = makeATS sca →
      i_ref o' = Some i → refpos o' = refpos o → truncate o' = truncate o →
      resolve_reference sca' file_lines o' headers_full sequences_full sequences_ori
      = resolve_reference sca file_lines o headers_full sequences_full sequences_ori)
  ∧ (∀ headers_full sequences_full sequences_ori h s_tmp ats_tmp sequences ats,
        py_index headers_full i = Some h →
        py_index sequences_ori i = Some s_tmp →
        outcome (index_positions file_lines o sequences_ori) = Return ats_tmp →
        makeATS sca sequences_full ats_tmp s_tmp i (truncate o) = Some (sequences, ats) →
        outcome (resolve_reference sca file_lines o headers_full sequences_full sequences_ori)
        = Return {| r_i_ref := i; r_sequences := sequences; r_ats := ats;
                    r_dist_pdb := None |})
  ∧ (∀ headers_full sequences_full sequences_ori r,
        outcome (resolve_reference sca file_lines o headers_full sequences_full sequences_ori)
        = Return r →
        r_i_ref r = i ∧ r_dist_pdb r = None)
  ∧ (∀ out,
        outcome (main fl sca file_lines o) = Return out →
        D_i_ref (out_db out) = i
        ∧ D_distmat (out_db out) = None
        ∧ D_pdbid (out_db out) = None
        ∧ D_pdb_chainID (out_db out) = None).
Proof.
  intros Hi. split_and!.
  - intros sca' o' hf sf so Hats Hi' Hpos Htr.
    unfold resolve_reference. rewrite Hi, Hi'.
    unfold resolve_index, index_positions. by rewrite Hats, Hpos, Htr.
  - intros hf sf so h s_tmp ats_tmp sequences ats Hh Hs Hpos Hats.
    unfold resolve_reference. rewrite Hi. unfold resolve_index.
    run. rewrite Hh. run. rewrite Hs. run. rewrite Hpos. run. by rewrite Hats.
  - intros hf sf so r. unfold resolve_reference. rewrite Hi.
    apply resolve_index_Return.
  - intros out Hout.
    apply main_Return in Hout
      as (o' & hr & sr & so & hf & sf & pk & r & f & Ho & _ & _ & _ & Hr & Hf
          & _ & Hiref & Hdist & Hpdb & Hchain).
    rewrite (check_options_index _ _ Hi), outcome_ret in Ho. simplify_eq.
    unfold resolve_reference in Hr. rewrite Hi in Hr.
    apply resolve_index_Return in Hr as [Hri Hrd].
    apply filter_stage_Return in Hf as (?&?&?&?&?&?&?&_&_&_&_&->).
    simpl in *. rewrite Hrd in *. simpl in *. by rewrite Hiref, Hdist, Hpdb, Hchain.
Qed.

Lemma explicit_index_wins_witness :
  let o := Toy.command_line (Some "1ABC") (Some "Homo sapiens") (Some "Inputs/ref.fasta")
             None (Some 0) false false in
  i_ref o = Some 0
  ∧ (∃ out, outcome (main Toy.exact Toy.tools Toy.no_file o) = Return out)
  ∧ ∀ out, outcome (main Toy.exact Toy.tools Toy.no_file o) = Return out →
      D_i_ref (out_db out) = 0 ∧ D_distmat (out_db out) = None
      ∧ D_pdbid (out_db out) = None ∧ D_pdb_chainID (out_db out) = None.
Proof.
  split_and!; [reflexivity|by eexists|].
  apply (explicit_index_wins Toy.exact Toy.tools Toy.no_file
           (Toy.command_line (Some "1ABC") (Some "Homo sapiens")
              (Some "Inputs/ref.fasta") None (Some 0) false false) 0).
  reflexivity.
Defined.

(** ** A position file that cannot be read *)

(** C4.  The explicit-index branch does not recover from a position file
    that cannot be read.  With [--refindex 1 --refpos Inputs/missing.pos] the
    run ends with [sys.exit] and the message of a failed reference search,
    while the same command line without position file completes.  The
    reference-sequence branch does recover: with [--refseq] in place of the
    index, the same missing file gives the warning, and the run completes
    with the default positions. *)
Theorem position_file_abort_with_index :
  let o := Toy.command_line None None None (Some "Inputs/missing.pos") (Some 1) false false in
  let o' := Toy.command_line None None None None (Some 1) false false in
  let o_refseq := Toy.command_line None None (Some "Inputs/ref.fasta")
                    (Some "Inputs/missing.pos") None false false in
  refpos o = Some "Inputs/missing.pos"
  ∧ Toy.no_file "Inputs/missing.pos" = None
  ∧ outcome (main Toy.exact Toy.tools Toy.no_file o)
    = Raise (SystemExit "Error!!  Can't find reference sequence...")
  ∧ printed (main Toy.exact Toy.tools Toy.no_file o)
    = ["Loaded alignment of 3 sequences, 5 positions.";
       "Checking alignment for non-standard amino acids";
       "Alignment size after removing sequences with non-standard amino acids: 3";
       "Trimming alignment for highly gapped positions (80% or more).";
       "Alignment size post-trimming: 5 positions";
       "using provided reference index 1"; "s2|Mus musculus"]
  ∧ (∃ out, outcome (main Toy.exact Toy.tools Toy.no_file o') = Return out)
  ∧ (∃ out, outcome (main Toy.exact Toy.tools Toy.no_file o_refseq) = Return out
            ∧ D_ats (out_db out) = LInt <$> range 5)
  ∧ printed (main Toy.exact Toy.tools Toy.no_file o_refseq)
    = ["Using the reference sequence and position list...";
       "Loaded alignment of 3 sequences, 5 positions.";
       "Checking alignment for non-standard amino acids";
       "Alignment size after removing sequences with non-standard amino acids: 3";
       "Trimming alignment for highly gapped positions (80% or more).";
       "Alignment size post-trimming: 5 positions";
       "Finding reference sequence using provided sequence file...";
       "reference sequence index is: 1"; "s2|Mus musculus";
       "Error reading reference position file! Using default numbering 1..N";
       "Conducting sequence and position filtering: alignment size is 3 seqs, 5 pos";
       "ATS should also have 5 positions - ATS: 5";
       "After filtering: alignment size is 3 seqs, 3 effective seqs, 5 pos";
       "Final alignment parameters:"; "Number of sequences: M = 3";
       "Number of effective sequences: M' = 3";
       "Number of alignment positions: L = 5"].
Proof.
  split_and!; [done|done|reflexivity|reflexivity|by eexists|by eexists|reflexivity].
Qed.

(** * Further properties *)

(** ** More on the remap *)

Lemma mat_get_None_row (m : matrix) j k :
  (length m ≤ j)%nat → mat_get m j k = None.
Proof. intros Hj. unfold mat_get. by rewrite lookup_ge_None_2. Qed.

Lemma mat_get_None_col n (m : matrix) j k :
  square n m → (n ≤ k)%nat → mat_get m j k = None.
Proof.
  intros [_ Hrows] Hk. unfold mat_get.
  destruct (m !! j) as [row|] eqn:Hrow; simpl; [|done].
  apply lookup_ge_None_2. by rewrite (Hrows _ _ Hrow).
Qed.

Lemma square_ext n (A B : matrix) :
  square n A → square n B →
  (∀ j k, (j < n)%nat → (k < n)%nat → mat_get A j k = mat_get B j k) →
  A = B.
Proof.
  intros [HlA HrA] [HlB HrB] Hent. apply list_eq. intros j.
  destruct (decide (j < n)%nat) as [Hj|Hj].
  - destruct (lookup_lt_is_Some_2 A j) as [ra Hra]; [lia|].
    destruct (lookup_lt_is_Some_2 B j) as [rb Hrb]; [lia|].
    rewrite Hra, Hrb. f_equal. apply list_eq. intros k.
    destruct (decide (k < n)%nat) as [Hk|Hk].
    + specialize (Hent j k Hj Hk). unfold mat_get in Hent.
      by rewrite Hra, Hrb in Hent.
    + rewrite !lookup_ge_None_2; [done|rewrite (HrB _ _ Hrb); lia|rewrite (HrA _ _ Hra); lia].
  - rewrite !lookup_ge_None_2; [done|lia|lia].
Qed.

Lemma for_enum_is_Some_at {A St} (body : nat → A → St → option St) (l : list A) :
  ∀ i, (∀ k x s, l !! k = Some x → is_Some (body (i + k)%nat x s)) →
       ∀ s, is_Some (for_enum body i l s).
Proof.
  induction l as [|x l IH]; intros i Hbody s; simpl; [by eexists|].
  destruct (Hbody 0%nat x s eq_refl) as [s' Hs']. rewrite Nat.add_0_r in Hs'.
  rewrite Hs'. simpl. apply IH. intros k y t Hy.
  replace (S i + k)%nat with (i + S k)%nat by lia. by apply Hbody.
Qed.

(** X1.  When the remap returns, its result has one row per ATS label, every
    row has one entry per ATS label, and every diagonal entry is 0, also
    for the columns that have a structure position. *)
Theorem remap_square_zero_diagonal (ats ats_pdb : list label) (dist_pdb D : matrix) :
  remap ats ats_pdb dist_pdb = Some D →
  length D = length ats
  ∧ (∀ row, row ∈ D → length row = length ats)
  ∧ ∀ j, (j < length ats)%nat → mat_get D j j = Some 0%Q.
Proof.
  intros Hrun. destruct (remap_entries _ _ _ _ Hrun) as [[Hlen Hrows] Hent].
  split_and!; [done| |].
  - intros row [j Hj]%list_elem_of_lookup. by eapply Hrows.
  - intros j Hj. destruct (lookup_lt_is_Some_2 ats j Hj) as [p Hp].
    rewrite (Hent j j p p Hp Hp). unfold remapped_entry. by rewrite decide_True.
Qed.

Lemma remap_square_zero_diagonal_witness :
  length [[0; 1000; 7.6]; [1000; 0; 1000]; [7.6; 1000; 0]]%Q = 3%nat
  ∧ (∀ row, row ∈ [[0; 1000; 7.6]; [1000; 0; 1000]; [7.6; 1000; 0]]%Q → length row = 3%nat)
  ∧ ∀ j, (j < 3)%nat →
         mat_get [[0; 1000; 7.6]; [1000; 0; 1000]; [7.6; 1000; 0]]%Q j j = Some 0%Q.
Proof.
  apply (remap_square_zero_diagonal [LStr "10"; gap; LStr "12"]
           [LStr "10"; LStr "11"; LStr "12"]
           [[0; 3.8; 7.6]; [3.8; 0; 3.8]; [7.6; 3.8; 0]]%Q
           [[0; 1000; 7.6]; [1000; 0; 1000]; [7.6; 1000; 0]]%Q).
  reflexivity.
Defined.

Lemma raw_distance_sym ats_pdb dist_pdb p1 p2 :
  (∀ a b, mat_get dist_pdb a b = mat_get dist_pdb b a) →
  raw_distance ats_pdb dist_pdb p1 p2 = raw_distance ats_pdb dist_pdb p2 p1.
Proof.
  intros Hsym. unfold raw_distance.
  destruct (list_index p1 ats_pdb), (list_index p2 ats_pdb); simpl; auto.
Qed.

(** X2.  The remap keeps symmetry: when the raw matrix is symmetric, so is
    the remapped one. *)
Theorem remap_symmetric (ats ats_pdb : list label) (dist_pdb D : matrix) :
  remap ats ats_pdb dist_pdb = Some D →
  (∀ a b, mat_get dist_pdb a b = mat_get dist_pdb b a) →
  ∀ j k, mat_get D j k = mat_get D k j.
Proof.
  intros Hrun Hsym j k.
  destruct (remap_entries _ _ _ _ Hrun) as [Hsq Hent].
  destruct (decide (j < length ats)%nat) as [Hj|Hj];
    destruct (decide (k < length ats)%nat) as [Hk|Hk].
  - destruct (lookup_lt_is_Some_2 ats j Hj) as [p1 Hp1].
    destruct (lookup_lt_is_Some_2 ats k Hk) as [p2 Hp2].
    rewrite (Hent j k p1 p2 Hp1 Hp2), (Hent k j p2 p1 Hp2 Hp1).
    unfold remapped_entry. rewrite (orb_comm (is_gap p2)).
    rewrite (raw_distance_sym _ _ p2 p1 Hsym).
    repeat case_decide; congruence.
  - rewrite (mat_get_None_col _ D j k Hsq) by lia.
    rewrite mat_get_None_row; [done|]. destruct Hsq as [-> _]. lia.
  - rewrite (mat_get_None_col _ D k j Hsq) by lia.
    rewrite mat_get_None_row; [done|]. destruct Hsq as [-> _]. lia.
  - rewrite !mat_get_None_row; [done| |]; destruct Hsq as [-> _]; lia.
Qed.

Lemma remap_symmetric_witness :
  mat_get [[0; 1000; 7.6]; [1000; 0; 1000]; [7.6; 1000; 0]]%Q 0 2
  = mat_get [[0; 1000; 7.6]; [1000; 0; 1000]; [7.6; 1000; 0]]%Q 2 0.
Proof.
  apply (remap_symmetric [LStr "10"; gap; LStr "12"]
           [LStr "10"; LStr "11"; LStr "12"]
           [[0; 3.8; 7.6]; [3.8; 0; 3.8]; [7.6; 3.8; 0]]%Q
           [[0; 1000; 7.6]; [1000; 0; 1000]; [7.6; 1000; 0]]%Q);
    [reflexivity|].
  intros [|[|[|a]]] [|[|[|b]]]; reflexivity.
Defined.

Lemma remap_is_Some_pairs (ats ats_pdb : list label) (dist_pdb : matrix) :
  is_Some (remap ats ats_pdb dist_pdb)
  ↔ ∀ j k pos1 pos2,
      j ≠ k → ats !! j = Some pos1 → ats !! k = Some pos2 →
      pos1 ≠ gap → pos2 ≠ gap →
      is_Some (raw_distance ats_pdb dist_pdb pos1 pos2).
Proof.
  split.
  - intros [D Hrun] j k pos1 pos2 Hjk Hj Hk Hg1 Hg2.
    destruct (remap_entries _ _ _ _ Hrun) as [Hsq Hent].
    destruct (mat_get_square _ D j k Hsq) as [v Hv];
      [by eapply lookup_lt_Some|by eapply lookup_lt_Some|].
    rewrite (Hent j k pos1 pos2 Hj Hk) in Hv. unfold remapped_entry in Hv.
    rewrite decide_False in Hv by congruence.
    apply is_gap_false in Hg1, Hg2. rewrite Hg1, Hg2 in Hv. simpl in Hv.
    by rewrite Hv.
  - intros Hraw. unfold remap.
    apply for_enum_is_Some_at. intros j pos1 m Hj.
    apply for_enum_is_Some_at. intros k pos2 m' Hk. simpl.
    unfold remap_cell. case_decide as Hkj; [|by eexists].
    destruct (is_gap pos1) eqn:Hg1; simpl; [by eexists|].
    destruct (is_gap pos2) eqn:Hg2; simpl; [by eexists|].
    apply is_gap_false in Hg1, Hg2.
    destruct (Hraw j k pos1 pos2) as [v Hv]; [congruence|done..|].
    rewrite Hv. by eexists.
Qed.

(** X3.  The remap returns a matrix exactly when the raw distance exists for
    every pair of distinct columns whose labels are both not the sentinel:
    it raises only on such a pair (a label missing from the structure's
    list, or a raw matrix that is too small), and never looks up a column
    paired with itself or with a sentinel column. *)
Theorem remap_returns_iff (ats ats_pdb : list label) (dist_pdb : matrix) :
  is_Some (remap ats ats_pdb dist_pdb)
  ↔ ∀ j k pos1 pos2,
      j ≠ k → ats !! j = Some pos1 → ats !! k = Some pos2 →
      pos1 ≠ gap → pos2 ≠ gap →
      is_Some (raw_distance ats_pdb dist_pdb pos1 pos2).
Proof. apply remap_is_Some_pairs. Qed.

Lemma remap_returns_iff_witness :
  is_Some (remap [LStr "10"; gap; LStr "12"] [LStr "10"; LStr "11"; LStr "12"]
             [[0; 3.8; 7.6]; [3.8; 0; 3.8]; [7.6; 3.8; 0]]%Q)
  ∧ ¬ is_Some (remap [LStr "10"; LStr "99"] [LStr "10"; LStr "11"; LStr "12"]
                 [[0; 3.8; 7.6]; [3.8; 0; 3.8]; [7.6; 3.8; 0]]%Q).
Proof.
  split.
  - by eexists.
  - intros Hsome.
    destruct (proj1 (remap_returns_iff [LStr "10"; LStr "99"]
                       [LStr "10"; LStr "11"; LStr "12"]
                       [[0; 3.8; 7.6]; [3.8; 0; 3.8]; [7.6; 3.8; 0]]%Q) Hsome
                0%nat 1%nat (LStr "10") (LStr "99")) as [v Hv];
      [lia|reflexivity|reflexivity|discriminate|discriminate|].
    discriminate Hv.
Defined.

Lemma ix_select_square D K D' : ix_select D K = Some D' → square (length K) D'.
Proof.
  unfold ix_select. intros HF. split; [symmetry; by eapply length_mapM|].
  apply mapM_Some in HF. intros a row' Hrow'.
  destruct (Forall2_lookup_r _ _ _ _ _ HF Hrow') as (ka & _ & Hsel).
  destruct (D !! ka) as [row|]; simpl in Hsel; [|done].
  symmetry. by eapply length_mapM.
Qed.

(** X4.  Re-slicing commutes with the remap: for a list [K] of column
    indices without repetition, the matrix remapped for the full ATS and
    then cut down to [K, K] is the matrix the remap builds for the ATS cut
    down to [K]. *)
Theorem remap_reslice_commute (ats ats' ats_pdb : list label)
    (dist_pdb D : matrix) (K : list nat) :
  remap ats ats_pdb dist_pdb = Some D →
  NoDup K →
  select ats K = Some ats' →
  remap ats' ats_pdb dist_pdb = ix_select D K.
Proof.
  intros Hrun Hnodup Hsel.
  destruct (remap_entries _ _ _ _ Hrun) as [Hsq Hent].
  pose proof (select_length _ _ _ Hsel) as Hlen.
  destruct (ix_select_total _ D K Hsq (select_bounds _ _ _ Hsel)) as [D1 HD1].
  assert (Hlab : ∀ a p, ats' !! a = Some p → ∃ ka, K !! a = Some ka ∧ ats !! ka = Some p).
  { intros a p Ha.
    destruct (lookup_lt_is_Some_2 K a) as [ka Hka];
      [rewrite <-Hlen; by eapply lookup_lt_Some|].
    destruct (select_lookup _ _ _ _ _ Hsel Hka) as (x & Hx & Hx').
    exists ka. split; [done|]. congruence. }
  assert (is_Some (remap ats' ats_pdb dist_pdb)) as [D2 HD2].
  { apply remap_is_Some_pairs. intros a b p1 p2 Hab Ha Hb Hg1 Hg2.
    destruct (Hlab _ _ Ha) as (ka & Hka & Hpa).
    destruct (Hlab _ _ Hb) as (kb & Hkb & Hpb).
    apply (proj1 (remap_is_Some_pairs ats ats_pdb dist_pdb) (ex_intro _ D Hrun)
             ka kb p1 p2); try done.
    intros ->. apply Hab. by eapply NoDup_lookup. }
  rewrite HD2, HD1. f_equal.
  destruct (remap_entries _ _ _ _ HD2) as [Hsq2 Hent2].
  pose proof (ix_select_square _ _ _ HD1) as Hsq1. rewrite Hlen in Hsq2.
  apply (square_ext (length K)); [done|done|].
  intros a b Ha Hb.
  destruct (lookup_lt_is_Some_2 ats' a) as [p1 Hp1]; [lia|].
  destruct (lookup_lt_is_Some_2 ats' b) as [p2 Hp2]; [lia|].
  destruct (Hlab _ _ Hp1) as (ka & Hka & Hpa).
  destruct (Hlab _ _ Hp2) as (kb & Hkb & Hpb).
  rewrite (Hent2 a b p1 p2 Hp1 Hp2).
  destruct (ix_select_Some _ _ _ HD1) as [_ Hsel1].
  destruct (Hsel1 a b ka kb Hka Hkb) as (v & -> & Hv).
  rewrite (Hent ka kb p1 p2 Hpa Hpb) in Hv. rewrite <-Hv.
  unfold remapped_entry.
  destruct (decide (b = a)) as [->|Hne].
  - assert (kb = ka) as -> by congruence. by rewrite decide_True.
  - rewrite decide_False; [done|]. intros ->. apply Hne. by eapply NoDup_lookup.
Qed.

Lemma remap_reslice_commute_witness :
  remap [LStr "10"; LStr "12"] [LStr "10"; LStr "11"; LStr "12"]
        [[0; 3.8; 7.6]; [3.8; 0; 3.8]; [7.6; 3.8; 0]]%Q
  = ix_select [[0; 1000; 7.6]; [1000; 0; 1000]; [7.6; 1000; 0]]%Q [0; 2]%nat.
Proof.
  apply (remap_reslice_commute [LStr "10"; gap; LStr "12"] [LStr "10"; LStr "12"]
           [LStr "10"; LStr "11"; LStr "12"]
           [[0; 3.8; 7.6]; [3.8; 0; 3.8]; [7.6; 3.8; 0]]%Q
           [[0; 1000; 7.6]; [1000; 0; 1000]; [7.6; 1000; 0]]%Q [0; 2]%nat);
    [reflexivity| |reflexivity].
  apply NoDup_cons. split; [by intros [= ]%list_elem_of_singleton|].
  apply NoDup_cons. split; [by intros ?%elem_of_nil|]. apply NoDup_nil_2.
Defined.

(** ** More on the removal of non-standard sequences *)

Lemma sanitize_loop_standard headers_full l :
  ∀ i alg_out hd_out,
    Forall (λ k, nonstandard_flag k = false) l →
    (i + length l ≤ length headers_full)%nat →
    for_enum (sanitize_body headers_full) i l (alg_out, hd_out)
    = Some (alg_out ++ l, hd_out ++ take (length l) (drop i headers_full)).
Proof.
  induction l as [|k l IH]; intros i alg_out hd_out Hstd Hlen; simpl.
  - by rewrite !app_nil_r.
  - apply Forall_cons in Hstd as [Hk Hstd]. simpl in Hlen.
    unfold sanitize_body at 1. rewrite Hk.
    destruct (lookup_lt_is_Some_2 headers_full i) as [h Hh]; [lia|].
    rewrite Hh. simpl. rewrite IH by (done || lia).
    rewrite (drop_S _ _ _ Hh). simpl. by rewrite <-!app_assoc.
Qed.

Lemma sanitize_loop_None headers_full l :
  ∀ i st,
    for_enum (sanitize_body headers_full) i l st = None
    ↔ ∃ n k, l !! n = Some k ∧ nonstandard_flag k = false
             ∧ (length headers_full ≤ i + n)%nat.
Proof.
  induction l as [|k l IH]; intros i [alg_out hd_out]; simpl.
  - split; [done|]. by intros (n & k & ? & _).
  - destruct (nonstandard_flag k) eqn:Hflag; simpl.
    + rewrite IH. split.
      * intros (n & k' & Hn & Hk' & Hlen). exists (S n), k'. split_and!; [done|done|lia].
      * intros ([|n] & k' & Hn & Hk' & Hlen); simpl in Hn.
        { congruence. }
        exists n, k'. split_and!; [done|done|lia].
    + destruct (headers_full !! i) as [h|] eqn:Hh; simpl.
      * rewrite IH. apply lookup_lt_Some in Hh. split.
        -- intros (n & k' & Hn & Hk' & Hlen). exists (S n), k'.
           split_and!; [done|done|lia].
        -- intros ([|n] & k' & Hn & Hk' & Hlen); simpl in Hn; [lia|].
           exists n, k'. split_and!; [done|done|lia].
      * apply lookup_ge_None in Hh. split; [|done]. intros _.
        exists 0%nat, k. split_and!; [done|done|lia].
Qed.

(** X5.  Removing the non-standard sequences a second time changes nothing:
    on the sequences and headers it has returned, the loop returns them
    again. *)
Theorem sanitize_idempotent (headers_full sequences_full alg hd : list string) :
  sanitize headers_full sequences_full = Some (alg, hd) →
  sanitize hd alg = Some (alg, hd).
Proof.
  intros Hs. rewrite sanitize_unfold in Hs.
  apply sanitize_loop in Hs as (ka & kh & -> & -> & Hka & _ & Hlen). simpl.
  rewrite sanitize_unfold, sanitize_loop_standard.
  - simpl. by rewrite drop_0, <-Hlen, firstn_all.
  - rewrite Hka. apply Forall_forall. by intros k [Hk _]%list_elem_of_filter.
  - simpl. lia.
Qed.

Lemma sanitize_idempotent_witness :
  sanitize ["s1"; "s3"] ["A-DEF"; "ACDEF"] = Some (["A-DEF"; "ACDEF"], ["s1"; "s3"]).
Proof.
  apply (sanitize_idempotent ["s1"; "s2"; "s3"; "s4"]
           ["A-DEF"; "ABCDE"; "ACDEF"; "ACXEF"]).
  reflexivity.
Defined.

(** X6.  The loop raises (the [IndexError] of [headers_full[i]]) exactly when
    some sequence made of standard letters only sits at an index for which
    there is no header; a non-standard sequence without header does no
    harm. *)
Theorem sanitize_raises_iff (headers_full sequences_full : list string) :
  sanitize headers_full sequences_full = None
  ↔ ∃ i k, sequences_full !! i = Some k ∧ standard_sequence k
           ∧ (length headers_full ≤ i)%nat.
Proof.
  rewrite sanitize_unfold, sanitize_loop_None. simpl.
  split; intros (i & k & Hi & Hk & Hlen); exists i, k;
    (split_and!; [done|by apply nonstandard_flag_spec|done]).
Qed.

Lemma sanitize_raises_iff_witness :
  sanitize ["s1"] ["A-DEF"; "ACDEF"] = None
  ∧ sanitize ["s1"] ["A-DEF"; "ABCDE"] = Some (["A-DEF"], ["s1"]).
Proof.
  split; [|reflexivity].
  apply (sanitize_raises_iff ["s1"] ["A-DEF"; "ACDEF"]).
  exists 1%nat, "ACDEF". split_and!; [reflexivity| |simpl; lia].
  apply nonstandard_flag_spec. reflexivity.
Defined.

(** ** The options after the first checks *)

Lemma check_options_Return o :
  ∃ o', outcome (check_options o) = Return o'
        ∧ alignment o' = alignment o ∧ chainID o' = chainID o
        ∧ refseq o' = refseq o ∧ refpos o' = refpos o ∧ i_ref o' = i_ref o
        ∧ parameters o' = parameters o ∧ Nselect o' = Nselect o
        ∧ truncate o' = truncate o
        ∧ (is_Some (i_ref o) → o' = o ∧ printed (check_options o) = [])
        ∧ (i_ref o = None →
           pdbid o' = match refseq o with Some _ => None | None => pdbid o end
           ∧ species o' = match pdbid o with Some _ => species o | None => None end).
Proof.
  destruct o as [al [p|] ch [s|] [r|] [rp|] [i|] pa ns tr];
    (eexists; split; [vm_compute; reflexivity|]);
    cbn; split_and!; try done; try (by intros [? [=]]); by intros [=].
Qed.

(** X7.  The first checks never fail and never touch the alignment, the
    chain, the reference-sequence file, the position file, the index, the
    filter parameters or the flags.  With an explicit index they change
    nothing and print nothing.  Without one, a reference-sequence file makes
    them drop the PDB identifier, and a species given without PDB identifier
    is dropped. *)
Theorem check_options_normalises (o : options) :
  ∃ o', outcome (check_options o) = Return o'
        ∧ alignment o' = alignment o ∧ chainID o' = chainID o
        ∧ refseq o' = refseq o ∧ refpos o' = refpos o ∧ i_ref o' = i_ref o
        ∧ parameters o' = parameters o ∧ Nselect o' = Nselect o
        ∧ truncate o' = truncate o
        ∧ (is_Some (i_ref o) → o' = o ∧ printed (check_options o) = [])
        ∧ (i_ref o = None →
           pdbid o' = match refseq o with Some _ => None | None => pdbid o end
           ∧ species o' = match pdbid o with Some _ => species o | None => None end).
Proof. apply check_options_Return. Qed.

Lemma py_index_is_Some {A} (l : list A) (i : Z) :
  is_Some (py_index l i) ↔ - Z.of_nat (length l) <= i < Z.of_nat (length l).
Proof.
  unfold py_index. repeat case_decide; rewrite ?lookup_lt_is_Some; try lia.
  split; [by intros [? [=]]|lia].
Qed.

Lemma py_index_None {A} (l : list A) (i : Z) :
  py_index l i = None ↔ i < - Z.of_nat (length l) ∨ Z.of_nat (length l) <= i.
Proof.
  rewrite eq_None_not_Some, py_index_is_Some. lia.
Qed.

(** X8.  Without an explicit index, a reference-sequence file wins over a
    PDB identifier: after the first checks reference resolution is the
    reference-sequence branch, and a run that reaches the end stores no
    distance matrix, no PDB identifier and no chain. *)
Theorem refseq_overrides_pdb (fl : floats) (sca : scaTools)
    (file_lines : string → option (list string)) (o : options) (rs : string) :
  i_ref o = None →
  refseq o = Some rs →
  (∀ o' headers_full sequences_full sequences_ori,
      outcome (check_options o) = Return o' →
      resolve_reference sca file_lines o' headers_full sequences_full sequences_ori
      = resolve_refseq sca file_lines o' rs headers_full sequences_full)
  ∧ (∀ out,
        outcome (main fl sca file_lines o) = Return out →
        D_distmat (out_db out) = None
        ∧ D_pdbid (out_db out) = None
        ∧ D_pdb_chainID (out_db out) = None).
Proof.
  intros Hi Hrs.
  assert (Hbranch : ∀ o' hf sf so,
    outcome (check_options o) = Return o' →
    resolve_reference sca file_lines o' hf sf so
    = resolve_refseq sca file_lines o' rs hf sf).
  { intros o' hf sf so Ho'.
    destruct (check_options_Return o)
      as (o'' & Ho'' & _ & _ & Hrs' & _ & Hi' & _ & _ & _ & _ & Hnone).
    rewrite Ho' in Ho''. injection Ho'' as <-.
    destruct (Hnone Hi) as [Hpdb _]. rewrite Hrs in Hpdb.
    unfold resolve_reference. by rewrite Hi', Hi, Hpdb, Hrs', Hrs. }
  split; [exact Hbranch|].
  intros out Hout.
  apply main_Return in Hout
    as (o' & hr & sr & so & hf & sf & pk & r & f & Ho & _ & _ & _ & Hr & Hf
        & _ & _ & Hdist & Hpdb & Hchain).
  rewrite (Hbranch _ _ _ _ Ho) in Hr. apply resolve_refseq_dist in Hr.
  apply filter_stage_Return in Hf as (?&?&?&?&?&?&?&_&_&_&_&->).
  simpl in *. rewrite Hr in *. simpl in *. by rewrite Hdist, Hpdb, Hchain.
Qed.

Lemma refseq_overrides_pdb_witness :
  let o := Toy.command_line (Some "1ABC") (Some "Mus musculus")
             (Some "Inputs/ref.fasta") None None false false in
  (∃ out, outcome (main Toy.exact Toy.tools Toy.no_file o) = Return out)
  ∧ ∀ out, outcome (main Toy.exact Toy.tools Toy.no_file o) = Return out →
           D_distmat (out_db out) = None
           ∧ D_pdbid (out_db out) = None
           ∧ D_pdb_chainID (out_db out) = None.
Proof.
  split; [by eexists|].
  apply (refseq_overrides_pdb Toy.exact Toy.tools Toy.no_file
           (Toy.command_line (Some "1ABC") (Some "Mus musculus")
              (Some "Inputs/ref.fasta") None None false false)
           "Inputs/ref.fasta"); reflexivity.
Defined.

(** ** How the branches of reference resolution end *)

(** X9.  The PDB branch never ends with an exception nobody catches, and
    never with the message of the failed search: whatever goes wrong in it
    (the structure lookup, both searches, [makeATS], the remap), the run
    leaves through the outer handler with the message about the PDB
    identifier.  The reference-sequence branch likewise always leaves with
    its own message. *)
Theorem resolution_exit_messages (sca : scaTools)
    (file_lines : string → option (list string)) (o : options)
    (pdb rs : string) (headers_full sequences_full : list string) :
  (∀ e, outcome (resolve_pdb sca o pdb headers_full sequences_full) = Raise e →
        e = SystemExit "Error!!! Something wrong with PDBid or path...")
  ∧ (pdbSeq sca pdb (chainID o) = None →
     outcome (resolve_pdb sca o pdb headers_full sequences_full)
     = Raise (SystemExit "Error!!! Something wrong with PDBid or path..."))
  ∧ (∀ e, outcome (resolve_refseq sca file_lines o rs headers_full sequences_full)
          = Raise e →
          e = SystemExit "Error!!  Can't find reference sequence...")
  ∧ (readAlg sca rs = None →
     outcome (resolve_refseq sca file_lines o rs headers_full sequences_full)
     = Raise (SystemExit "Error!!  Can't find reference sequence...")).
Proof.
  split_and!.
  - intros e. unfold resolve_pdb. rewrite outcome_try_except.
    destruct (outcome _); [done|]. rewrite outcome_sys_exit. by intros [= <-].
  - intros Hpdb. unfold resolve_pdb. run. by rewrite Hpdb.
  - intros e. unfold resolve_refseq. rewrite outcome_bind, outcome_print.
    rewrite outcome_try_except.
    destruct (outcome _); [done|]. rewrite outcome_sys_exit. by intros [= <-].
  - intros Hread. unfold resolve_refseq. run. by rewrite Hread.
Qed.

Lemma resolution_exit_messages_witness :
  let tools := Toy.sca Toy.scenario_alignment
                 (λ _ _, Some ("WWWWW", [LStr "1"; LStr "2"; LStr "3"; LStr "4"; LStr "5"],
                               []))
                 [] in
  outcome (resolve_pdb tools
             (Toy.command_line (Some "9XYZ") (Some "Homo sapiens") None None None false false)
             "9XYZ" ["s1|Homo sapiens"; "s2|Mus musculus"; "s3|Homo sapiens"]
             ["A-DEF"; "ACDEF"; "A-DE-"])
  = Raise (SystemExit "Error!!! Something wrong with PDBid or path...").
Proof.
  intros tools.
  destruct (outcome (resolve_pdb tools
             (Toy.command_line (Some "9XYZ") (Some "Homo sapiens") None None None false false)
             "9XYZ" ["s1|Homo sapiens"; "s2|Mus musculus"; "s3|Homo sapiens"]
             ["A-DEF"; "ACDEF"; "A-DE-"])) as [r|e] eqn:Hout.
  - vm_compute in Hout. discriminate Hout.
  - f_equal.
    apply (proj1 (resolution_exit_messages tools Toy.no_file
             (Toy.command_line (Some "9XYZ") (Some "Homo sapiens") None None None false false)
             "9XYZ" "" ["s1|Homo sapiens"; "s2|Mus musculus"; "s3|Homo sapiens"]
             ["A-DEF"; "ACDEF"; "A-DE-"]) e Hout).
Defined.

(** ** An explicit index, and no hint at all *)

(** X10.  An explicit index that is out of range for the headers ends the
    run with the exception of the lookup, before the [try] block: no
    [sys.exit] message.  When the branch returns, the index is in range,
    counting from the end when negative, for the headers and for the
    sequences read from the file, and it is the resolved index. *)
Theorem explicit_index_bounds (sca : scaTools)
    (file_lines : string → option (list string)) (o : options) (i : Z)
    (headers_full sequences_full sequences_ori : list string) :
  (i < - Z.of_nat (length headers_full) ∨ Z.of_nat (length headers_full) <= i →
   outcome (resolve_index sca file_lines o i headers_full sequences_full sequences_ori)
   = Raise Exception)
  ∧ ∀ r,
      outcome (resolve_index sca file_lines o i headers_full sequences_full sequences_ori)
      = Return r →
      - Z.of_nat (length headers_full) <= i < Z.of_nat (length headers_full)
      ∧ - Z.of_nat (length sequences_ori) <= i < Z.of_nat (length sequences_ori)
      ∧ r_i_ref r = i.
Proof.
  split.
  - intros Hout%py_index_None. unfold resolve_index. run. by rewrite Hout.
  - intros r Hr.
    destruct (resolve_index_lookups _ _ _ _ _ _ _ _ Hr) as (h & s & Hh & Hs).
    apply resolve_index_Return in Hr as [Hi _].
    split_and!; [apply py_index_is_Some; by eexists..|done].
Qed.

Lemma explicit_index_bounds_witness :
  outcome (resolve_index Toy.tools Toy.no_file
             (Toy.command_line None None None None (Some 3) false false) 3
             ["s1"; "s2"; "s3"] ["A-DEF"; "ACDEF"; "A-DE-"] ["A-DEF"; "ACDEF"; "A-DE-"])
  = Raise Exception.
Proof.
  apply (explicit_index_bounds Toy.tools Toy.no_file
           (Toy.command_line None None None None (Some 3) false false) 3
           ["s1"; "s2"; "s3"] ["A-DEF"; "ACDEF"; "A-DE-"] ["A-DEF"; "ACDEF"; "A-DE-"]).
  right. simpl. lia.
Defined.

Lemma default_positions_Return seqs ats :
  outcome (default_positions seqs) = Return ats →
  seqs ≠ [] ∧ ats = LInt <$> range (ncols seqs).
Proof.
  unfold default_positions. destruct seqs as [|s0 seqs]; run; [done|].
  simpl. run. by intros [= <-].
Qed.

Lemma gap_not_in_range n : gap ∉ (LInt <$> range n).
Proof. intros (x & Hx & _)%list_elem_of_fmap. discriminate Hx. Qed.

Lemma length_default_labels n : length (LInt <$> range n) = n.
Proof. unfold range. by rewrite !length_fmap, length_seq. Qed.

(** X11.  With no reference hint at all, the alignment is left as it is and
    the ATS is the list 0, 1, ..., P-1 for its P columns: one label per
    column, none of them the sentinel, and no distance matrix. *)
Theorem auto_branch_ats (sca : scaTools) (headers_full sequences_full : list string)
    (r : resolved) :
  outcome (resolve_auto sca headers_full sequences_full) = Return r →
  chooseRefSeq sca sequences_full = Some (r_i_ref r)
  ∧ r_sequences r = sequences_full
  ∧ r_ats r = LInt <$> range (ncols sequences_full)
  ∧ length (r_ats r) = ncols sequences_full
  ∧ (gap ∉ r_ats r)
  ∧ r_dist_pdb r = None.
Proof.
  unfold resolve_auto. intros H. split_run H.
  rewrite outcome_ret in H. simplify_eq. simpl.
  repeat match goal with Hc : outcome (call _) = Return _ |- _ =>
    apply call_Return_inv in Hc end.
  match goal with Hd : outcome (default_positions _) = Return _ |- _ =>
    apply default_positions_Return in Hd as [_ ->] end.
  split_and!; [done|done|done|apply length_default_labels|apply gap_not_in_range|done].
Qed.

Lemma auto_branch_ats_witness :
  let r := {| r_i_ref := 1; r_sequences := ["A-DEF"; "ACDEF"; "A-DE-"];
              r_ats := [LInt 0; LInt 1; LInt 2; LInt 3; LInt 4];
              r_dist_pdb := None |} in
  length (r_ats r) = ncols ["A-DEF"; "ACDEF"; "A-DE-"] ∧ (gap ∉ r_ats r).
Proof.
  destruct (auto_branch_ats Toy.tools ["s1"; "s2"; "s3"] ["A-DEF"; "ACDEF"; "A-DE-"]
              {| r_i_ref := 1; r_sequences := ["A-DEF"; "ACDEF"; "A-DE-"];
                 r_ats := [LInt 0; LInt 1; LInt 2; LInt 3; LInt 4];
                 r_dist_pdb := None |} eq_refl)
    as (_ & _ & _ & Hlen & Hgap & _).
  by split.
Defined.

(** ** The down-selection's arguments *)

Lemma list_index_None {A} `{EqDecision A} (x : A) (l : list A) :
  list_index x l = None ↔ x ∉ l.
Proof.
  split.
  - intros Hnone Hx. destruct (list_index_elem_of x l Hx) as (i & Hi & _). congruence.
  - intros Hx. destruct (list_index x l) as [i|] eqn:Hi; [|done].
    apply list_index_Some in Hi as [Hi _]. destruct Hx. by eapply list_elem_of_lookup_2.
Qed.

(** X12.  The list of sequences the down-selection must keep has at most one
    element.  It is empty when the reference index is not among the retained
    indices, and always so for a negative index (such an index counts from
    the end in the lookups, but is never equal to a retained index);
    otherwise it holds the first position of the reference index among the
    retained indices. *)
Theorem keep_list_forced (seqkeep : list nat) (i : Z) :
  (i < 0 → keep_list seqkeep i = [])
  ∧ (i ∉ (Z.of_nat <$> seqkeep) → keep_list seqkeep i = [])
  ∧ (i ∈ (Z.of_nat <$> seqkeep) →
     ∃ p, keep_list seqkeep i = [p]
          ∧ seqkeep !! p = Some (Z.to_nat i)
          ∧ ∀ p', (p' < p)%nat → seqkeep !! p' ≠ Some (Z.to_nat i)).
Proof.
  assert (Hnot : i ∉ (Z.of_nat <$> seqkeep) → keep_list seqkeep i = []).
  { intros Hi. unfold keep_list. by rewrite (proj2 (list_index_None _ _) Hi). }
  split_and!; [|done|].
  - intros Hneg. apply Hnot. intros (n & -> & _)%list_elem_of_fmap. lia.
  - intros Hin. destruct (list_index_elem_of _ _ Hin) as (p & Hp & _).
    exists p. unfold keep_list. rewrite Hp. split; [done|].
    apply list_index_Some in Hp as [Hlook Hfirst].
    rewrite list_lookup_fmap in Hlook.
    destruct (seqkeep !! p) as [n|] eqn:Hn; simplify_eq/=.
    split; [by rewrite Nat2Z.id|].
    intros p' Hlt Hp'. apply (Hfirst p' Hlt).
    rewrite list_lookup_fmap, Hp'. simpl. by rewrite Nat2Z.id.
Qed.

Lemma keep_list_forced_witness :
  keep_list [0; 2; 3; 5]%nat (-1) = []
  ∧ ∃ p, keep_list [0; 2; 3; 5]%nat 3 = [p]
         ∧ [0; 2; 3; 5]%nat !! p = Some (Z.to_nat 3)
         ∧ ∀ p', (p' < p)%nat → [0; 2; 3; 5]%nat !! p' ≠ Some (Z.to_nat 3).
Proof.
  split.
  - apply (proj1 (keep_list_forced [0; 2; 3; 5]%nat (-1))). lia.
  - apply (proj2 (proj2 (keep_list_forced [0; 2; 3; 5]%nat 3))).
    apply list_elem_of_fmap. exists 3%nat. split; [done|].
    apply list_elem_of_In. simpl. tauto.
Defined.

(** ** The exported distance matrix *)

Lemma select_all {A} (l : list A) : select l (seq 0 (length l)) = Some l.
Proof.
  unfold select. apply mapM_Some. apply Forall2_same_length_lookup. split.
  - by rewrite length_seq.
  - intros i k x [-> Hi]%lookup_seq Hx. exact Hx.
Qed.

Lemma ix_select_all n (D : matrix) : square n D → ix_select D (seq 0 n) = Some D.
Proof.
  intros Hsq.
  destruct (ix_select_total n D (seq 0 n) Hsq) as [D' HD'].
  { apply Forall_forall. intros k Hk%elem_of_seq. lia. }
  rewrite HD'. f_equal.
  pose proof (ix_select_square _ _ _ HD') as Hsq'. rewrite length_seq in Hsq'.
  apply (square_ext n); [done|done|].
  intros j k Hj Hk. destruct (ix_select_Some _ _ _ HD') as [_ Hent].
  destruct (Hent j k j k) as (v & -> & ->); [by apply lookup_seq..|done].
Qed.

(** X14.  A position filter that keeps every column changes neither the ATS
    nor the distance matrix. *)
Theorem keep_all_columns_noop (sca : scaTools)
    (file_lines : string → option (list string)) (o : options)
    (headers_full sequences_full sequences_ori : list string)
    (r : resolved) (f : filtered) :
  outcome (resolve_reference sca file_lines o headers_full sequences_full sequences_ori)
  = Return r →
  outcome (filter_stage sca o headers_full r) = Return f →
  f_iposkeep f = seq 0 (length (r_ats r)) →
  f_ats f = r_ats r ∧ f_distmat f = r_dist_pdb r.
Proof.
  intros Hr Hf HK.
  apply filter_stage_Return in Hf
    as (alg0 & seqw0 & seqkeep & alg1 & K & headers & ats & _ & _ & _ & Hats & ->).
  simpl in *. subst K. rewrite select_all in Hats. injection Hats as <-.
  split; [done|]. unfold reslice_distmat.
  destruct (r_dist_pdb r) as [D|] eqn:HD; [|done]. simpl.
  apply ix_select_all. by eapply resolve_reference_dist.
Qed.

Lemma keep_all_columns_noop_witness :
  let o := Toy.command_line (Some "1ABC") None None None None false false in
  let hd := ["s1|Homo sapiens"; "s2|Mus musculus"; "s3|Homo sapiens"] in
  let seqs := ["A-DEF"; "ACDEF"; "A-DE-"] in
  ∃ r f,
    outcome (resolve_reference Toy.tools Toy.no_file o hd seqs seqs) = Return r
    ∧ outcome (filter_stage Toy.tools o hd r) = Return f
    ∧ f_ats f = r_ats r ∧ f_distmat f = r_dist_pdb r.
Proof.
  intros o hd seqs.
  eexists _, _. split; [reflexivity|]. split; [reflexivity|].
  match goal with
  | |- f_ats ?f = _ ∧ _ =>
      apply (keep_all_columns_noop Toy.tools Toy.no_file o hd seqs seqs _ f);
        reflexivity
  end.
Defined.

(** X15.  A run that reaches the end stores a distance matrix exactly when
    it was resolved through the PDB branch: no explicit index, no
    reference-sequence file, and a PDB identifier.  The stored matrix has
    one row and one column per label of the stored ATS. *)
Theorem distmat_exported_iff (fl : floats) (sca : scaTools)
    (file_lines : string → option (list string)) (o : options) (out : output) :
  outcome (main fl sca file_lines o) = Return out →
  (is_Some (D_distmat (out_db out))
   ↔ i_ref o = None ∧ refseq o = None ∧ is_Some (pdbid o))
  ∧ ∀ D', D_distmat (out_db out) = Some D' →
          square (length (D_ats (out_db out))) D'.
Proof.
  intros Hout.
  apply main_Return in Hout
    as (o' & hr & sr & so & hf & sf & pk & r & f & Ho & _ & _ & _ & Hr & Hf
        & Hats & _ & Hdist & _).
  rewrite Hats, Hdist.
  destruct (check_options_Return o)
    as (o'' & Ho'' & _ & _ & Hrs & _ & Hi & _ & _ & _ & _ & Hnone).
  rewrite Ho in Ho''. injection Ho'' as <-.
  pose proof (λ D, resolve_reference_dist _ _ _ _ _ _ _ D Hr) as Hsq.
  assert (is_Some (r_dist_pdb r)
          ↔ i_ref o = None ∧ refseq o = None ∧ is_Some (pdbid o)) as Hbranch.
  { unfold resolve_reference in Hr. rewrite Hi in Hr.
    destruct (i_ref o) as [i|] eqn:Hio.
    { apply resolve_index_Return in Hr as [_ ->].
      split; [by intros [? [=]]|by intros [[=] _]]. }
    destruct (Hnone eq_refl) as [Hpdb _]. rewrite Hpdb, Hrs in Hr.
    destruct (refseq o) as [rs|].
    { apply resolve_refseq_dist in Hr as ->.
      split; [by intros [? [=]]|by intros (_ & [=] & _)]. }
    destruct (pdbid o) as [pdb|].
    - apply resolve_pdb_dist in Hr as (D & -> & _).
      split; [intros _; split_and!; [done|done|by eexists]|by eexists].
    - apply resolve_auto_dist in Hr as ->.
      split; [by intros [? [=]]|by intros (_ & _ & [? [=]])]. }
  apply filter_stage_Return in Hf
    as (alg0 & seqw0 & seqkeep & alg1 & K & headers & ats & _ & _ & _ & Hsel & ->).
  simpl. pose proof (select_length _ _ _ Hsel) as Hlen.
  unfold reslice_distmat. destruct (r_dist_pdb r) as [D|] eqn:HD; simpl.
  - destruct (ix_select_total _ D K (Hsq D eq_refl) (select_bounds _ _ _ Hsel))
      as [D' HD'].
    rewrite HD'. split.
    + rewrite <-Hbranch. split; by eexists.
    + intros D'' [= <-]. rewrite Hlen. by eapply ix_select_square.
  - split; [|done]. rewrite <-Hbranch. done.
Qed.

Lemma distmat_exported_iff_witness :
  let o := Toy.command_line (Some "1ABC") None None None None false false in
  ∃ out,
    outcome (main Toy.exact Toy.tools Toy.no_file o) = Return out
    ∧ (is_Some (D_distmat (out_db out))
       ↔ i_ref o = None ∧ refseq o = None ∧ is_Some (pdbid o))
    ∧ ∀ D', D_distmat (out_db out) = Some D' →
            square (length (D_ats (out_db out))) D'.
Proof.
  intros o. eexists. split; [reflexivity|].
  match goal with
  | |- context [D_distmat (out_db ?out)] =>
      apply (distmat_exported_iff Toy.exact Toy.tools Toy.no_file o out); reflexivity
  end.
Defined.

(** ** The lines of the FASTA file *)

Lemma mjoin_pairs {A} (recs : list (list A)) :
  (∀ rec, rec ∈ recs → length rec = 2%nat) →
  length (mjoin recs) = (2 * length recs)%nat
  ∧ ∀ i rec, recs !! i = Some rec →
      mjoin recs !! (2 * i)%nat = rec !! 0%nat
      ∧ mjoin recs !! (2 * i + 1)%nat = rec !! 1%nat.
Proof.
  induction recs as [|rec0 recs IH]; intros Hlen.
  - split; [done|]. intros i rec Hi. by rewrite lookup_nil in Hi.
  - destruct IH as [IHlen IHent].
    { intros rec Hrec. apply Hlen. by right. }
    assert (length rec0 = 2%nat) as Hrec0 by (apply Hlen; by left).
    destruct rec0 as [|x [|y [|z rec0]]]; try done.
    split; [change (mjoin ([x; y] :: recs)) with (x :: y :: mjoin recs); simpl; lia|].
    intros [|i] rec Hi.
    + simpl in Hi. by simplify_eq.
    + change (recs !! i = Some rec) in Hi.
      replace (2 * S i)%nat with (S (S (2 * i))) by lia.
      replace (S (S (2 * i)) + 1)%nat with (S (S (2 * i + 1))) by lia.
      exact (IHent i rec Hi).
Qed.

Lemma fasta_lines_records (alg hd : list string) :
  (is_Some (fasta_lines alg hd) ↔ (length alg ≤ length hd)%nat)
  ∧ ∀ lines,
      fasta_lines alg hd = Some lines →
      length lines = (2 * length alg)%nat
      ∧ ∀ i a, alg !! i = Some a →
          ∃ h, hd !! i = Some h
               ∧ lines !! (2 * i)%nat = Some (">" +:+ h +:+ String newline EmptyString)
               ∧ lines !! (2 * i + 1)%nat = Some (a +:+ String newline EmptyString).
Proof.
  unfold fasta_lines.
  set (rec := λ i : nat, h ← hd !! i; a ← alg !! i;
                Some [">" +:+ h +:+ String newline EmptyString;
                      a +:+ String newline EmptyString]).
  assert (Hrec : ∀ i r, rec i = Some r →
            ∃ h a, hd !! i = Some h ∧ alg !! i = Some a
                   ∧ r = [">" +:+ h +:+ String newline EmptyString;
                          a +:+ String newline EmptyString]).
  { intros i r. unfold rec.
    destruct (hd !! i) as [h|]; simpl; [|done].
    destruct (alg !! i) as [a|]; simpl; [|done].
    intros [= <-]. eauto. }
  split.
  - split.
    + intros [lines Hlines].
      destruct (mapM rec (seq 0 (length alg))) as [recs|] eqn:Hrecs; [|done].
      apply mapM_Some in Hrecs.
      destruct (decide (length alg ≤ length hd)%nat) as [|Hgt]; [done|].
      destruct (Forall2_lookup_l _ _ _ (length hd) (length hd) Hrecs)
        as (r & _ & Hr); [apply lookup_seq; lia|].
      apply Hrec in Hr as (h & _ & Hh & _). apply lookup_lt_Some in Hh. lia.
    + intros Hlen.
      assert (is_Some (mapM rec (seq 0 (length alg)))) as [recs ->]; [|by eexists].
      apply mapM_is_Some, Forall_forall. intros i Hi%elem_of_seq. unfold rec.
      destruct (lookup_lt_is_Some_2 hd i) as [h Hh]; [lia|].
      destruct (lookup_lt_is_Some_2 alg i) as [a Ha]; [lia|].
      unfold compose. rewrite Hh. simpl. rewrite Ha. by eexists.
  - intros lines Hlines.
    destruct (mapM rec (seq 0 (length alg))) as [recs|] eqn:Hrecs; [|done].
    simpl in Hlines. injection Hlines as <-.
    pose proof (length_mapM _ _ _ Hrecs) as Hlen. rewrite length_seq in Hlen.
    apply mapM_Some in Hrecs.
    destruct (mjoin_pairs recs) as [Hjlen Hjent].
    { intros r [i Hi]%list_elem_of_lookup.
      destruct (Forall2_lookup_r _ _ _ _ _ Hrecs Hi) as (k & _ & Hk).
      by apply Hrec in Hk as (h & a & _ & _ & ->). }
    split; [lia|].
    intros i a Ha.
    destruct (Forall2_lookup_l _ _ _ i i Hrecs) as (r & Hr & Hri).
    { apply lookup_seq. split; [done|]. by eapply lookup_lt_Some. }
    apply Hrec in Hri as (h & a' & Hh & Ha' & ->). simplify_eq.
    exists h. destruct (Hjent i _ Hr) as [-> ->]. done.
Qed.

(** X16.  The FASTA lines can be written exactly when there are at least as
    many headers as sequences (otherwise [hd[i]] raises).  There are then two
    lines per sequence, in the order of the alignment: the header after a
    ['>'] and the sequence, each closed by a newline. *)
Theorem fasta_lines_spec (alg hd : list string) :
  (is_Some (fasta_lines alg hd) ↔ (length alg ≤ length hd)%nat)
  ∧ ∀ lines,
      fasta_lines alg hd = Some lines →
      length lines = (2 * length alg)%nat
      ∧ ∀ i a, alg !! i = Some a →
          ∃ h, hd !! i = Some h
               ∧ lines !! (2 * i)%nat = Some (">" +:+ h +:+ String newline EmptyString)
               ∧ lines !! (2 * i + 1)%nat = Some (a +:+ String newline EmptyString).
Proof. apply fasta_lines_records. Qed.

Lemma fasta_lines_spec_witness :
  is_Some (fasta_lines ["A-DEF"; "ACDEF"] ["s1"; "s2"; "s3"])
  ∧ ¬ is_Some (fasta_lines ["A-DEF"; "ACDEF"] ["s1"]).
Proof.
  split.
  - apply (proj1 (fasta_lines_spec ["A-DEF"; "ACDEF"] ["s1"; "s2"; "s3"])).
    simpl. lia.
  - intros Hsome.
    apply (proj1 (fasta_lines_spec ["A-DEF"; "ACDEF"] ["s1"])) in Hsome.
    simpl in Hsome. lia.
Defined.

(** ** Reading the position file: [rstrip] *)

Lemma app_newline_inv c r s :
  String c r = s +:+ String newline EmptyString →
  (s = EmptyString ∧ c = newline ∧ r = EmptyString)
  ∨ ∃ s', s = String c s' ∧ r = s' +:+ String newline EmptyString.
Proof.
  destruct s as [|c' s']; simpl.
  - intros [= -> ->]. by left.
  - intros [= -> ->]. right. by eexists.
Qed.

(** X17.  [line.rstrip('\n')] removes newlines at the end of the line and
    nothing else: the line is the result followed by newlines only, and the
    result does not end in a newline. *)
Theorem rstrip_newline_spec (line : string) :
  (∃ n, line = rstrip_newline line
               +:+ string_of_list_ascii (replicate n newline))
  ∧ ∀ s, rstrip_newline line ≠ s +:+ String newline EmptyString.
Proof.
  induction line as [|c rest [[n IHn] IHend]].
  - split; [by exists 0%nat|]. intros [|??]; done.
  - simpl. destruct (rstrip_newline rest) as [|c' r] eqn:Hr.
    + simpl in IHn. destruct (Ascii.eqb_spec c newline) as [->|Hc].
      * split; [exists (S n); simpl; by rewrite IHn|]. intros [|??]; done.
      * split; [exists n; simpl; by rewrite IHn|].
        intros s [(_ & ? & _)|(s' & _ & Hs')]%app_newline_inv; [done|].
        by destruct s'.
    + split; [exists n; simpl; by rewrite IHn at 1|].
      intros s [(_ & _ & ?)|(s' & _ & Hs')]%app_newline_inv; [done|].
      by apply (IHend s').
Qed.

(** ** An alignment without sequences *)

(** X18.  When [readAlg] raises or returns no sequence, the script ends with
    the uncaught exception of [sequences_full[0]] at the first report line:
    no [sys.exit] message, and nothing printed but the lines of the option
    checks. *)
Theorem main_needs_sequences (fl : floats) (sca : scaTools)
    (file_lines : string → option (list string)) (o : options) :
  (∀ h s ss, readAlg sca (alignment o) ≠ Some (h, s :: ss)) →
  outcome (main fl sca file_lines o) = Raise Exception
  ∧ printed (main fl sca file_lines o) = printed (check_options o).
Proof.
  intros Hne.
  destruct (check_options_Return o) as (o' & Hco & Hal & _).
  unfold main. split.
  - rewrite outcome_bind, Hco. cbv beta iota.
    rewrite outcome_bind, outcome_call, Hal.
    destruct (readAlg sca (alignment o)) as [[h [|s ss]]|] eqn:Hr;
      [reflexivity|by destruct (Hne h s ss)|reflexivity].
  - rewrite (printed_bind_Return _ _ _ Hco). cbv beta. rewrite Hal.
    destruct (readAlg sca (alignment o)) as [[h [|s ss]]|] eqn:Hr;
      [exact (app_nil_r _)|by destruct (Hne h s ss)|exact (app_nil_r _)].
Qed.

Lemma main_needs_sequences_witness :
  let sca := Toy.sca (λ _, Some (["s1"], [])) Toy.no_structure [] in
  let o := Toy.command_line None (Some "Homo") None None None false false in
  outcome (main Toy.exact sca Toy.no_file o) = Raise Exception
  ∧ printed (main Toy.exact sca Toy.no_file o) = ["No PDBid, ignoring species..."].
Proof.
  intros sca o.
  destruct (main_needs_sequences Toy.exact sca Toy.no_file o) as [Hout Hpr]; [done|].
  split; [exact Hout|]. rewrite Hpr. reflexivity.
Defined.

(** ** What a completed run has written *)

(** X19.  In a run that reaches the end, the FASTA file has two lines per
    stored sequence and every stored sequence has a header.  Without
    down-selection the stored alignment is the filtered one, so
    [NseqPrelimit] is its number of sequences; with down-selection the
    stored headers and sequences are equally many. *)
Theorem output_consistency (fl : floats) (sca : scaTools)
    (file_lines : string → option (list string)) (o : options) (out : output) :
  outcome (main fl sca file_lines o) = Return out →
  length (out_fasta out) = (2 * length (D_alg (out_db out)))%nat
  ∧ (length (D_alg (out_db out)) ≤ length (D_hd (out_db out)))%nat
  ∧ D_limitseqs (out_db out) = Nselect o
  ∧ (Nselect o = false →
     D_NseqPrelimit (out_db out) = length (D_alg (out_db out)))
  ∧ (Nselect o = true →
     length (D_hd (out_db out)) = length (D_alg (out_db out))).
Proof.
  intros H.
  destruct (check_options_Return o) as (o' & Hco & _ & _ & _ & _ & _ & _ & Hns & _).
  unfold main in H. apply bind_Return_inv in H as (o'' & Hco' & H).
  rewrite Hco in Hco'. injection Hco' as <-.
  split_run H. rewrite outcome_ret in H. simplify_eq. simpl.
  repeat match goal with Hc : outcome (call _) = Return _ |- _ =>
    apply call_Return_inv in Hc end.
  match goal with Hf : fasta_lines ?alg ?hd = Some _ |- _ =>
    destruct (fasta_lines_records alg hd) as [Hiff Hlines];
    destruct (Hlines _ Hf) as [Hlen _];
    pose proof (proj1 Hiff (mk_is_Some _ _ Hf)) as Hle
  end.
  split_and!; [done|done|done| |].
  - intros Hoff. rewrite <- Hns in Hoff.
    match goal with Hs : outcome (select_stage _ _ _ _ _ _) = Return _ |- _ =>
      unfold select_stage in Hs; rewrite Hoff, outcome_ret in Hs; by simplify_eq end.
  - intros Hon. rewrite <- Hns in Hon.
    match goal with Hs : outcome (select_stage _ _ _ _ _ _) = Return _ |- _ =>
      unfold select_stage in Hs; rewrite Hon in Hs; split_run Hs;
      rewrite outcome_ret in Hs; simplify_eq end.
    repeat match goal with Hc : outcome (call _) = Return _ |- _ =>
      apply call_Return_inv in Hc end.
    repeat match goal with Hc : select _ _ = Some _ |- _ =>
      apply select_length in Hc end.
    congruence.
Qed.

Lemma output_consistency_witness :
  let o := Toy.with_parameters Toy.lenient
             (Toy.command_line None None None None None false false) in
  ∃ out, outcome (main Toy.exact Toy.tools Toy.no_file o) = Return out
         ∧ length (out_fasta out) = (2 * length (D_alg (out_db out)))%nat
         ∧ D_NseqPrelimit (out_db out) = length (D_alg (out_db out)).
Proof.
  intros o.
  assert (∃ out, outcome (main Toy.exact Toy.tools Toy.no_file o) = Return out) as [out Hout]
    by (by eexists).
  exists out. split; [exact Hout|].
  destruct (output_consistency Toy.exact Toy.tools Toy.no_file o out Hout)
    as (Hlen & _ & _ & Hoff & _).
  split; [exact Hlen|]. apply Hoff. reflexivity.
Defined.

(** ** [merge_data] entry by entry, and on a list in two parts *)

Section MergeMore.
Context {F : Type}.
Implicit Types (freq_data : list (freq_entry F)) (dssp_data : list dssp_entry).

Lemma merge_data_lookup freq_data dssp_data i :
  merge_data freq_data dssp_data !! i
  = merged_at dssp_data i (non_X (take i freq_data)) <$> freq_data !! i.
Proof.
  unfold merge_data.
  destruct (merge_loop_spec dssp_data freq_data) as (Hlen & _ & _ & Hentries).
  destruct (freq_data !! i) as [e|] eqn:Hi; simpl.
  - by apply Hentries.
  - apply lookup_ge_None_2. rewrite Hlen. by apply lookup_ge_None.
Qed.

Lemma non_X_app freq_data freq_data' :
  non_X (freq_data ++ freq_data') = (non_X freq_data + non_X freq_data')%nat.
Proof. unfold non_X. by rewrite filter_app, length_app. Qed.

Lemma non_X_take_lt freq_data i (e : freq_entry F) :
  freq_data !! i = Some e → e.1.1 ≠ "X" →
  (non_X (take i freq_data) < non_X freq_data)%nat.
Proof.
  intros Hi HX. rewrite <- (take_drop_middle _ _ _ Hi) at 2.
  rewrite non_X_app. unfold non_X at 3. rewrite filter_cons_True by done.
  simpl. lia.
Qed.

Lemma merged_at_pos dssp_data i n (e : freq_entry F) :
  (merged_at dssp_data i n e).1.1.1.1 = Z.of_nat i + 1.
Proof.
  destruct e as [[r h] v]. unfold merged_at. case_decide; [done|].
  by destruct (dssp_data !! n) as [[[? ?] ?]|].
Qed.

(** X20.  [merge_data] on a frequency list in two parts: the first part is
    merged as if it were alone; the second part is merged against the DSSP
    lines the first part has left, its positions counted on from the length
    of the first part. *)
Theorem merge_data_app freq_data freq_data' dssp_data :
  merge_data (freq_data ++ freq_data') dssp_data
  = merge_data freq_data dssp_data
    ++ ((λ e : merged_entry F,
           (e.1.1.1.1 + Z.of_nat (length freq_data), e.1.1.1.2, e.1.1.2, e.1.2, e.2))
        <$> merge_data freq_data' (drop (non_X freq_data) dssp_data)).
Proof.
  assert (Hlen : length (merge_data freq_data dssp_data) = length freq_data).
  { unfold merge_data. by destruct (merge_loop_spec dssp_data freq_data) as [? _]. }
  apply list_eq. intros i. rewrite merge_data_lookup.
  destruct (decide (i < length freq_data)%nat) as [Hlt|Hge].
  - rewrite !lookup_app_l by lia. rewrite take_app_le by lia.
    by rewrite merge_data_lookup.
  - rewrite !lookup_app_r by lia. rewrite Hlen.
    rewrite list_lookup_fmap, merge_data_lookup.
    assert (i = (length freq_data + (i - length freq_data))%nat) as Hi by lia.
    set (k := (i - length freq_data)%nat) in *. clearbody k. subst i.
    rewrite take_app_add, non_X_app.
    destruct (freq_data' !! k) as [[[r h] v]|]; simpl; [|done].
    f_equal. unfold merged_at. rewrite lookup_drop.
    case_decide.
    + simpl. do 4 f_equal. lia.
    + destruct (dssp_data !! _) as [[[? ?] ?]|]; simpl; do 4 f_equal; lia.
Qed.

(** X21.  [merge_data] reads of the DSSP list only the residue and the
    secondary structure of the first [non_X freq_data] lines: two DSSP lists
    that agree there give the same result, whatever their position column
    holds and whatever lines follow. *)
Theorem merge_data_reads freq_data dssp_data dssp_data' :
  (∀ k, (k < non_X freq_data)%nat →
        (λ x : dssp_entry, (x.1.2, x.2)) <$> dssp_data !! k
        = (λ x : dssp_entry, (x.1.2, x.2)) <$> dssp_data' !! k) →
  merge_data freq_data dssp_data = merge_data freq_data dssp_data'.
Proof.
  intros Hagree. apply list_eq. intros i. rewrite !merge_data_lookup.
  destruct (freq_data !! i) as [[[r h] v]|] eqn:Hi; simpl; [|done].
  f_equal. unfold merged_at. case_decide as HX; [done|].
  pose proof (Hagree _ (non_X_take_lt _ _ _ Hi HX)) as Hk.
  destruct (dssp_data !! _) as [[[p1 r1] s1]|],
           (dssp_data' !! _) as [[[p2 r2] s2]|]; simplify_eq/=; done.
Qed.

End MergeMore.

Lemma merge_data_reads_witness :
  merge_data [("M", "M", 90%Z); ("X", "-", 0%Z); ("K", "R", 70%Z)]
             [(12, "M", "H"); (13, "K", "C"); (14, "L", "E")]
  = merge_data [("M", "M", 90%Z); ("X", "-", 0%Z); ("K", "R", 70%Z)]
               [(1, "M", "H"); (1, "K", "C")].
Proof.
  apply (merge_data_reads
           [("M", "M", 90%Z); ("X", "-", 0%Z); ("K", "R", 70%Z)]
           [(12, "M", "H"); (13, "K", "C"); (14, "L", "E")]
           [(1, "M", "H"); (1, "K", "C")]).
  intros [|[|k]] Hk; [reflexivity|reflexivity|].
  exfalso. vm_compute in Hk. lia.
Defined.

(** ** The mutation filter *)

Section MutationFacts.
Context {F : Type} `{EqDecision F}.
Variable ge : F → F → bool.
Implicit Types (l acc : list (merged_entry F)) (x y : merged_entry F).

(** The order [sorted] establishes. *)
Local Abbreviation by_pos := (λ x y : merged_entry F, (pos_of x ≤ pos_of y)%Z).

Lemma insert_by_pos_Permutation x l : insert_by_pos x l ≡ₚ x :: l.
Proof.
  induction l as [|y l IH]; simpl; [done|].
  case_decide; [done|]. rewrite IH. apply perm_swap.
Qed.

Lemma sorted_by_pos_Permutation l : sorted_by_pos l ≡ₚ l.
Proof.
  induction l as [|x l IH]; simpl; [done|].
  by rewrite insert_by_pos_Permutation, IH.
Qed.

Lemma insert_by_pos_sorted x l :
  StronglySorted by_pos l → StronglySorted by_pos (insert_by_pos x l).
Proof.
  induction 1 as [|y l Hl IH Hy]; simpl.
  - by repeat constructor.
  - case_decide as Hxy.
    + constructor; [by constructor|].
      constructor; [done|].
      eapply Forall_impl; [exact Hy|]. simpl. intros z Hz. lia.
    + constructor; [done|].
      rewrite insert_by_pos_Permutation. constructor; [lia|done].
Qed.

Lemma sorted_by_pos_sorted l : StronglySorted by_pos (sorted_by_pos l).
Proof.
  induction l as [|x l IH]; simpl; [constructor|].
  by apply insert_by_pos_sorted.
Qed.

Lemma StronglySorted_filter_by_pos (P : merged_entry F → Prop)
    `{∀ x, Decision (P x)} l :
  StronglySorted by_pos l → StronglySorted by_pos (filter P l).
Proof.
  induction 1 as [|y l Hl IH Hy]; [constructor|].
  rewrite filter_cons. case_decide; [|done].
  constructor; [done|].
  apply Forall_forall. intros z [_ Hz]%list_elem_of_filter.
  by eapply Forall_forall in Hy.
Qed.

Lemma numbered_sorted l (k : Z) :
  (∀ i x, l !! i = Some x → pos_of x = Z.of_nat i + k) →
  StronglySorted by_pos l.
Proof.
  revert k. induction l as [|y l IH]; intros k Hpos; [constructor|].
  constructor.
  - apply (IH (k + 1)). intros i x Hi.
    rewrite (Hpos (S i) x Hi). lia.
  - apply Forall_forall. intros z [i Hi]%list_elem_of_lookup.
    rewrite (Hpos 0%nat y eq_refl), (Hpos (S i) z Hi). lia.
Qed.

Lemma numbered_NoDup l (k : Z) :
  (∀ i x, l !! i = Some x → pos_of x = Z.of_nat i + k) → NoDup l.
Proof.
  intros Hpos. apply NoDup_alt. intros i j x Hi Hj.
  apply Hpos in Hi, Hj. lia.
Qed.

Lemma filtered_set_loop beta gama l acc :
  NoDup (acc ++ l) →
  fold_left (λ s e, if is_mutation ge beta gama e then set_add e s else s) l acc
  = acc ++ filter (λ e, is_mutation ge beta gama e = true) l.
Proof.
  revert acc. induction l as [|x l IH]; intros acc Hnd; simpl.
  - by rewrite app_nil_r.
  - rewrite filter_cons.
    apply NoDup_app in Hnd as (Hacc & Hdisj & [Hx Hl]%NoDup_cons).
    destruct (is_mutation ge beta gama x) eqn:Hm.
    + unfold set_add. rewrite decide_False.
      2:{ intros Hin. apply (Hdisj _ Hin). by left. }
      rewrite decide_True by done.
      rewrite IH, <- app_assoc; [done|].
      rewrite <- app_assoc. simpl. apply NoDup_app. split_and!; [done| |by constructor].
      intros z Hz. apply Hdisj. done.
    + rewrite decide_False by done.
      apply IH. apply NoDup_app. split_and!; [done| |done].
      intros z Hz Hzl. apply (Hdisj _ Hz). by right.
Qed.

Lemma merge_data_numbered (freq_data : list (freq_entry F)) dssp_data :
  ∀ i x, merge_data freq_data dssp_data !! i = Some x → pos_of x = Z.of_nat i + 1.
Proof.
  intros i x. rewrite merge_data_lookup.
  destruct (freq_data !! i); simpl; [|done].
  intros [= <-]. apply merged_at_pos.
Qed.

(** X22.  The filtered list of [main], on the merged list [merge_data]
    returns.  The set holds the entries that pass the test, each once; and in
    whatever order Python iterates over the set, [sorted] returns the entries
    that pass the test in the order of the merged list: the positions of the
    merged list are all different, so the sort key leaves no tie. *)
Theorem filtered_list_is_filter beta gama (freq_data : list (freq_entry F))
    dssp_data :
  let merged_list := merge_data freq_data dssp_data in
  filtered_set ge beta gama merged_list
  = filter (λ e, is_mutation ge beta gama e = true) merged_list
  ∧ ∀ iteration,
      iteration ≡ₚ filtered_set ge beta gama merged_list →
      filtered_list ge beta gama merged_list iteration
      = Some (filter (λ e, is_mutation ge beta gama e = true) merged_list).
Proof.
  intros merged_list.
  pose proof (merge_data_numbered freq_data dssp_data) as Hnum.
  fold merged_list in Hnum. clearbody merged_list.
  assert (Hset : filtered_set ge beta gama merged_list
                 = filter (λ e, is_mutation ge beta gama e = true) merged_list).
  { unfold filtered_set. rewrite filtered_set_loop; [done|].
    simpl. by eapply numbered_NoDup. }
  split; [done|]. intros iteration Hit.
  unfold filtered_list. rewrite decide_True by done. f_equal.
  assert (Hin : ∀ x, x ∈ sorted_by_pos iteration → x ∈ merged_list).
  { intros x. rewrite sorted_by_pos_Permutation, Hit, Hset.
    by intros [_ ?]%list_elem_of_filter. }
  apply (StronglySorted_unique_strong (λ x y, (pos_of x ≤ pos_of y)%Z)).
  - intros x1 x2 [i Hi]%Hin%list_elem_of_lookup
                 [_ [j Hj]%list_elem_of_lookup]%list_elem_of_filter H12 H21.
    pose proof (Hnum _ _ Hi). pose proof (Hnum _ _ Hj).
    assert (i = j) as -> by lia. congruence.
  - apply sorted_by_pos_sorted.
  - apply StronglySorted_filter_by_pos. by eapply numbered_sorted.
  - by rewrite sorted_by_pos_Permutation, Hit, Hset.
Qed.

End MutationFacts.

Lemma filtered_list_is_filter_witness :
  filtered_list Z.geb 60 65
    (merge_data [("M", "M", 90); ("X", "-", 0); ("K", "R", 70); ("L", "V", 55);
                 ("A", "G", 80)]
                [(12, "M", "H"); (13, "K", "C"); (14, "L", "E"); (15, "A", "H")])
    [(5, "A", "G", 80, "H"); (3, "K", "R", 70, "C")]
  = Some [(3, "K", "R", 70, "C"); (5, "A", "G", 80, "H")].
Proof.
  destruct (filtered_list_is_filter Z.geb 60 65
              [("M", "M", 90); ("X", "-", 0); ("K", "R", 70); ("L", "V", 55);
               ("A", "G", 80)]
              [(12, "M", "H"); (13, "K", "C"); (14, "L", "E"); (15, "A", "H")])
    as [Hset Hlist].
  rewrite (Hlist [(5, "A", "G", 80, "H"); (3, "K", "R", 70, "C")]).
  - reflexivity.
  - rewrite Hset. exact (perm_swap _ _ []).
Defined.

(** ** The position file of the reference-sequence branch *)

(** X23.  In the reference-sequence-file branch, a position file
    that cannot be read is answered on the spot: the warning is printed, the
    position list is the default one, the same as when no position file is
    given, and the branch ends as it ends for a command line without position
    file. *)
Theorem position_file_fallback (sca : scaTools)
    (file_lines : string → option (list string)) (o : options)
    (rs path : string) (headers_full sequences_full : list string) :
  refpos o = Some path →
  file_lines path = None →
  outcome (refseq_positions file_lines o sequences_full)
  = outcome (default_positions sequences_full)
  ∧ "Error reading reference position file! Using default numbering 1..N"
    ∈ printed (refseq_positions file_lines o sequences_full)
  ∧ ∀ o', refpos o' = None → truncate o' = truncate o →
      outcome (resolve_refseq sca file_lines o rs headers_full sequences_full)
      = outcome (resolve_refseq sca file_lines o' rs headers_full sequences_full).
Proof.
  intros Hpos Hfile.
  assert (Hread : outcome (read_positions file_lines path) = Raise Exception).
  { unfold read_positions. run. by rewrite Hfile. }
  assert (Hout : ∀ o', refpos o' = None →
            outcome (refseq_positions file_lines o sequences_full)
            = outcome (refseq_positions file_lines o' sequences_full)).
  { intros o' Hnone. unfold refseq_positions. rewrite Hpos, Hnone. run.
    by rewrite Hread. }
  split_and!.
  - unfold refseq_positions. rewrite Hpos. run. by rewrite Hread.
  - unfold refseq_positions. rewrite Hpos.
    rewrite (printed_try_except_Raise _ _ _ Hread).
    apply elem_of_app. right.
    erewrite printed_bind_Return by apply outcome_print.
    simpl. apply elem_of_cons. by left.
  - intros o' Hnone Htr. unfold resolve_refseq. run.
    destruct (readAlg sca rs) as [[h_tmp s_tmp]|]; [|done]. run.
    destruct (s_tmp !! 0%nat) as [s0|]; [|done]. run.
    destruct (MSAsearch sca headers_full sequences_full s0 None) as [[i|]|]; [|done|done].
    run. destruct (py_index headers_full i); [|done]. run.
    rewrite (Hout o' Hnone), Htr. done.
Qed.

Lemma position_file_fallback_witness :
  let o := Toy.command_line None None (Some "Inputs/ref.fasta")
             (Some "Inputs/missing.pos") None false false in
  outcome (refseq_positions Toy.no_file o ["A-DEF"; "ACDEF"; "A-DE-"])
  = outcome (default_positions ["A-DEF"; "ACDEF"; "A-DE-"])
  ∧ "Error reading reference position file! Using default numbering 1..N"
    ∈ printed (refseq_positions Toy.no_file o ["A-DEF"; "ACDEF"; "A-DE-"])
  ∧ ∀ o', refpos o' = None → truncate o' = truncate o →
      outcome (resolve_refseq Toy.tools Toy.no_file o "Inputs/ref.fasta"
                 ["s1"; "s2"; "s3"] ["A-DEF"; "ACDEF"; "A-DE-"])
      = outcome (resolve_refseq Toy.tools Toy.no_file o' "Inputs/ref.fasta"
                 ["s1"; "s2"; "s3"] ["A-DEF"; "ACDEF"; "A-DE-"]).
Proof.
  apply (position_file_fallback Toy.tools Toy.no_file
           (Toy.command_line None None (Some "Inputs/ref.fasta")
              (Some "Inputs/missing.pos") None false false)
           "Inputs/ref.fasta" "Inputs/missing.pos"
           ["s1"; "s2"; "s3"] ["A-DEF"; "ACDEF"; "A-DE-"]); reflexivity.
Defined.
